(** * Trello client: the request/retry core ([src/http.ts]) and the generic
      entry point of the facade ([src/trello.ts], [Trello.makeRequest]).

    The development is a shallow embedding.  JavaScript values are an
    inductive type, strings are byte strings, objects are property lists kept
    in the order their properties were created, from which [Object.entries]
    computes its order (array indices first), the global [fetch], the
    clock and [Math.random] are an explicit world that every call threads,
    and the objects a caller keeps a reference to live in a store. *)

From Stdlib Require Import ZArith QArith Qround String Ascii List Lia DecimalString Sorted.
From stdpp Require Import gmap.
Import ListNotations.

Set Warnings "-register-all".

Local Open Scope Z_scope.
Local Open Scope string_scope.
Local Open Scope list_scope.

(** ** JavaScript strings *)

Module JsString.

(** The double quote character, code point 34. *)
Definition dquote : ascii := Ascii.ascii_of_nat 34.
Definition backslash : ascii := Ascii.ascii_of_nat 92.

Definition is_lower (c : ascii) : bool :=
  let n := Ascii.nat_of_ascii c in (97 <=? n)%nat && (n <=? 122)%nat.

Definition upper_char (c : ascii) : ascii :=
  if is_lower c then Ascii.ascii_of_nat (Ascii.nat_of_ascii c - 32) else c.

(** [s.toUpperCase()], on the ASCII letters; other bytes are kept. *)
Fixpoint toUpperCase (s : string) : string :=
  match s with
  | EmptyString => EmptyString
  | String c s' => String (upper_char c) (toUpperCase s')
  end.

(** [s.includes(needle)]. *)
Fixpoint includes (needle s : string) : bool :=
  String.prefix needle s
  || match s with
     | EmptyString => false
     | String _ s' => includes needle s'
     end.

(** [s.replace(/json$/, '')]: the pattern is anchored at the end of the
    input and is case-sensitive, so at most the final four characters go. *)
Fixpoint replace_json_end (s : string) : string :=
  match s with
  | EmptyString => EmptyString
  | String c s' =>
      if String.eqb s "json" then EmptyString
      else String c (replace_json_end s')
  end.

(** [parts.join(sep)]. *)
Fixpoint join (sep : string) (parts : list string) : string :=
  match parts with
  | [] => EmptyString
  | [p] => p
  | p :: rest => String.append p (String.append sep (join sep rest))
  end.

(** Decimal rendering of an integer, as [String(n)] prints a number that
    is a safe integer. *)
Definition of_Z (n : Z) : string :=
  DecimalString.NilZero.string_of_int (Z.to_int n).

Definition of_nat (n : nat) : string := of_Z (Z.of_nat n).

(** Hexadecimal digit, upper case from [base = 55], lower case from
    [base = 87]. *)
Definition hex_digit (base n : nat) : ascii :=
  if (n <? 10)%nat then Ascii.ascii_of_nat (48 + n)
  else Ascii.ascii_of_nat (base + n).

End JsString.

(** ** JavaScript values *)

Module Js.

(** Numbers are the integers that a number holds exactly and prints in
    plain decimal (the safe integers); objects are plain data objects given
    by their own enumerable string-keyed properties, in the order the
    properties were created.  The order in which the language enumerates
    them is computed from that by [enumerate] below. *)
Inductive JsVal : Type :=
| JUndefined
| JNull
| JBool (b : bool)
| JNum (n : Z)
| JStr (s : string)
| JArr (elems : list JsVal)
| JObj (props : list (string * JsVal)).

Definition Props : Type := list (string * JsVal).

(** [typeof v]. *)
Definition typeof (v : JsVal) : string :=
  match v with
  | JUndefined => "undefined"
  | JNull => "object"
  | JBool _ => "boolean"
  | JNum _ => "number"
  | JStr _ => "string"
  | JArr _ => "object"
  | JObj _ => "object"
  end.

(** The truthiness test of [if (v)]. *)
Definition truthy (v : JsVal) : bool :=
  match v with
  | JUndefined | JNull => false
  | JBool b => b
  | JNum n => negb (n =? 0)%Z
  | JStr s => negb (String.eqb s EmptyString)
  | JArr _ | JObj _ => true
  end.

(** [String(v)].  Inside [Array.prototype.join] the elements [null] and
    [undefined] print as the empty string. *)
Fixpoint ToString (v : JsVal) : string :=
  match v with
  | JUndefined => "undefined"
  | JNull => "null"
  | JBool true => "true"
  | JBool false => "false"
  | JNum n => JsString.of_Z n
  | JStr s => s
  | JArr elems =>
      JsString.join ","
        (List.map (fun e => match e with
                            | JUndefined | JNull => EmptyString
                            | _ => ToString e
                            end) elems)
  | JObj _ => "[object Object]"
  end.

(** *** Property lists *)

Fixpoint lookup_prop (k : string) (ps : Props) : option JsVal :=
  match ps with
  | [] => None
  | (k', v) :: ps' => if String.eqb k k' then Some v else lookup_prop k ps'
  end.

Definition has_prop (k : string) (ps : Props) : bool :=
  match lookup_prop k ps with Some _ => true | None => false end.

(** [o[k] = v] on the properties in creation order: an existing property
    keeps its place, a new one is the last created. *)
Fixpoint set_prop (k : string) (v : JsVal) (ps : Props) : Props :=
  match ps with
  | [] => [(k, v)]
  | (k', v') :: ps' =>
      if String.eqb k k' then (k, v) :: ps' else (k', v') :: set_prop k v ps'
  end.

(** [delete o[k]]. *)
Fixpoint delete_prop (k : string) (ps : Props) : Props :=
  match ps with
  | [] => []
  | (k', v') :: ps' =>
      if String.eqb k k' then delete_prop k ps' else (k', v') :: delete_prop k ps'
  end.

Fixpoint index_from {A : Type} (i : nat) (xs : list A) : list (string * A) :=
  match xs with
  | [] => []
  | x :: xs' => (JsString.of_nat i, x) :: index_from (S i) xs'
  end.

Fixpoint chars (s : string) : list JsVal :=
  match s with
  | EmptyString => []
  | String c s' => JStr (String c EmptyString) :: chars s'
  end.

(** The decimal digits of a key, read as a number. *)
Definition digit_value (c : ascii) : option N :=
  let n := Ascii.N_of_ascii c in
  if ((48 <=? n) && (n <=? 57))%N then Some (n - 48)%N else None.

Fixpoint parse_digits (acc : N) (s : string) : option N :=
  match s with
  | EmptyString => Some acc
  | String c s' =>
      match digit_value c with
      | Some d => parse_digits (10 * acc + d)%N s'
      | None => None
      end
  end.

(** A key is an array index when it is the canonical decimal text, without
    leading zero, of an integer from 0 to 2^32 - 2. *)
Definition array_index (k : string) : option N :=
  match k with
  | EmptyString => None
  | String c rest =>
      match parse_digits 0 k with
      | Some n =>
          if (negb (Ascii.eqb c "0") || String.eqb rest EmptyString)
             && (n <? 4294967295)%N
          then Some n else None
      | None => None
      end
  end.

Definition is_index (kv : string * JsVal) : bool :=
  match array_index (fst kv) with Some _ => true | None => false end.

Definition index_of (kv : string * JsVal) : N :=
  match array_index (fst kv) with Some n => n | None => 0%N end.

Fixpoint insert_by_index (kv : string * JsVal) (sorted : Props) : Props :=
  match sorted with
  | [] => [kv]
  | kv' :: rest =>
      if (index_of kv <? index_of kv')%N then kv :: sorted
      else kv' :: insert_by_index kv rest
  end.

Definition sort_by_index (ps : Props) : Props := List.fold_right insert_by_index [] ps.

(** The order in which the own properties of an object are enumerated
    ([OrdinaryOwnPropertyKeys]): the array indices in ascending numeric
    order, then the other keys in the order of their creation. *)
Definition enumerate (ps : Props) : Props :=
  sort_by_index (List.filter is_index ps)
  ++ List.filter (fun kv => negb (is_index kv)) ps.

(** [Object.entries(v)] for a value that is not [null] or [undefined]. *)
Definition entries (v : JsVal) : Props :=
  match v with
  | JObj ps => enumerate ps
  | JArr elems => index_from 0 elems
  | JStr s => index_from 0 (chars s)
  | _ => []
  end.

(** [{ ...target, ...source }] once [target] is built: every own
    enumerable property of [source] is defined on it in turn. *)
Definition spread (target : Props) (source : JsVal) : Props :=
  List.fold_left (fun acc kv => set_prop (fst kv) (snd kv) acc) (entries source) target.

(** [v[k]] for a key that is not an array index or [length]; [None] is the
    TypeError of reading a property of [null] or [undefined]. *)
Definition get (v : JsVal) (k : string) : option JsVal :=
  match v with
  | JUndefined | JNull => None
  | JObj ps => Some (match lookup_prop k ps with Some x => x | None => JUndefined end)
  | _ => Some JUndefined
  end.

End Js.

(** ** [JSON.stringify] *)

Module JSON.
Import Js.

Definition escape_char (c : ascii) : string :=
  let n := Ascii.nat_of_ascii c in
  let esc (l : ascii) := String JsString.backslash (String l EmptyString) in
  if (n =? 34)%nat then esc JsString.dquote
  else if (n =? 92)%nat then esc JsString.backslash
  else if (n =? 8)%nat then esc "b"%char
  else if (n =? 9)%nat then esc "t"%char
  else if (n =? 10)%nat then esc "n"%char
  else if (n =? 12)%nat then esc "f"%char
  else if (n =? 13)%nat then esc "r"%char
  else if (n <? 32)%nat then
    String.append (esc "u"%char)
      (String "0" (String "0"
         (String (JsString.hex_digit 87 (n / 16))
            (String (JsString.hex_digit 87 (n mod 16)) EmptyString))))
  else String c EmptyString.

Fixpoint escape (s : string) : string :=
  match s with
  | EmptyString => EmptyString
  | String c s' => String.append (escape_char c) (escape s')
  end.

Definition quote (s : string) : string :=
  String JsString.dquote
    (String.append (escape s) (String JsString.dquote EmptyString)).

(** Serialization of a value in element or member position: an
    [undefined] array element prints as [null], a member whose value is
    [undefined] is left out. *)
Fixpoint serialize (v : JsVal) : string :=
  match v with
  | JUndefined | JNull => "null"
  | JBool true => "true"
  | JBool false => "false"
  | JNum n => JsString.of_Z n
  | JStr s => quote s
  | JArr elems =>
      String.append "[" (String.append (JsString.join "," (List.map serialize elems)) "]")
  | JObj props =>
      let members :=
        (fix members (ps : list (string * JsVal)) : list string :=
           match ps with
           | [] => []
           | (k, JUndefined) :: ps' => members ps'
           | (k, x) :: ps' =>
               String.append (quote k) (String.append ":" (serialize x)) :: members ps'
           end) props in
      String.append "{" (String.append (JsString.join "," members) "}")
  end.

(** [JSON.stringify(v)]; [None] is the result [undefined]. *)
Definition stringify (v : JsVal) : option string :=
  match v with
  | JUndefined => None
  | _ => Some (serialize v)
  end.

End JSON.

(** ** [URL] and [URLSearchParams] *)

Module Url.

(** Bytes the [application/x-www-form-urlencoded] serializer leaves as
    they are: ASCII letters and digits and the four marks [*-._]. *)
Definition unreserved (c : ascii) : bool :=
  let n := Ascii.nat_of_ascii c in
  ((48 <=? n) && (n <=? 57) || (65 <=? n) && (n <=? 90) || (97 <=? n) && (n <=? 122)
   || (n =? 42) || (n =? 45) || (n =? 46) || (n =? 95))%nat.

Definition encode_char (c : ascii) : string :=
  let n := Ascii.nat_of_ascii c in
  if (n =? 32)%nat then "+"
  else if unreserved c then String c EmptyString
  else String "%" (String (JsString.hex_digit 55 (n / 16))
                     (String (JsString.hex_digit 55 (n mod 16)) EmptyString)).

Fixpoint encode (s : string) : string :=
  match s with
  | EmptyString => EmptyString
  | String c s' => String.append (encode_char c) (encode s')
  end.

Definition encode_pair (kv : string * string) : string :=
  String.append (encode (fst kv)) (String.append "=" (encode (snd kv))).

(** The query string of a list of name-value pairs, in list order. *)
Definition serialize (params : list (string * string)) : string :=
  JsString.join "&" (List.map encode_pair params).

(** A parsed URL.  Parsing itself is not modelled: the text given to
    [new URL] is taken to be an absolute URL in serialized form with no
    query and no fragment, which is what the client's callers pass. *)
Record URL : Type := mkURL {
  href_base : string;
  searchParams : list (string * string)
}.

Definition new_URL (s : string) : URL := mkURL s [].

(** [url.searchParams.append(name, value)]. *)
Definition append (name value : string) (u : URL) : URL :=
  mkURL (href_base u) (searchParams u ++ [(name, value)]).

(** [url.toString()]: an empty query leaves no question mark. *)
Definition toString (u : URL) : string :=
  let q := serialize (searchParams u) in
  if String.eqb q EmptyString then href_base u
  else String.append (href_base u) (String.append "?" q).

End Url.

(** ** The transport core: [src/http.ts] *)

Module Http.
Import Js.

(** The payload of a call: [{ query }] in form mode, [{ headers, data?,
    query }] in JSON mode.  A field that is absent reads as [undefined]. *)
Record RequestOptions : Type := mkOptions {
  headers : JsVal;
  data : JsVal;
  query : Props
}.

(** What [fetch] receives: the URL text and the [RequestInit] fields the
    client sets. *)
Record Request : Type := mkRequest {
  req_url : string;
  req_method : string;
  req_headers : JsVal;
  req_body : option string
}.

(** What the client reads of a response.  [json = None] is a body that
    [response.json()] fails to parse. *)
Record Response : Type := mkResponse {
  ok : bool;
  status : Z;
  text : string;
  json : option JsVal
}.

Inductive FetchResult : Type :=
| FetchResolved (response : Response)
| FetchRejected (reason : string).

(** The environment of a call: how the transport answers its [i]-th
    invocation, what [Math.random] draws at the [i]-th backoff, and the
    record of the invocations and of the timers set so far. *)
Record World : Type := mkWorld {
  transport : nat -> Request -> FetchResult;
  random : nat -> Q;
  calls : list Request;
  timers : list Z
}.

Definition fetch (req : Request) (w : World) : FetchResult * World :=
  (transport w (length (calls w)) req,
   mkWorld (transport w) (random w) (calls w ++ [req]) (timers w)).

Definition Math_random (w : World) : Q := random w (length (timers w)).

Definition setTimeout (delay : Z) (w : World) : World :=
  mkWorld (transport w) (random w) (calls w) (timers w ++ [delay]).

Inductive Failure : Type :=
| ErrorWithResponse (message : string) (response : Response)
| TypeError (message : string)
| FetchFailure (reason : string)
| JsonSyntaxError.

Inductive Outcome : Type :=
| Resolved (value : JsVal)
| Rejected (error : Failure).

Definition MIN_REQUEST_DELAY : Z := 500.
Definition MAX_REQUEST_DELAY : Z := 7000.

(** [Math.floor(r * (MAX_REQUEST_DELAY - MIN_REQUEST_DELAY)) +
    MIN_REQUEST_DELAY] for a draw [r], computed on exact rationals: the
    rounding of the product to a binary64 number is left out, which can move
    a delay by one millisecond at a draw next to a boundary and keeps it in
    the window. *)
Definition backoff_delay (r : Q) : Z :=
  Qfloor (r * inject_Z (MAX_REQUEST_DELAY - MIN_REQUEST_DELAY)) + MIN_REQUEST_DELAY.

(** [Object.entries(query).forEach(([key, value]) =>
    url.searchParams.append(key, String(value)))]. *)
Definition append_query (q : Props) (url : Url.URL) : Url.URL :=
  List.fold_left (fun u kv => Url.append (fst kv) (ToString (snd kv)) u)
    (entries (JObj q)) url.

(** Lines 24 to 52: the URL and the fetch options of one attempt, for a
    payload that has its [query] and a URL text that [new URL] accepts; the
    type errors of a malformed URL or of a payload without query, raised
    before any fetch, are not modelled. *)
Definition build_request (method uri : string) (options : RequestOptions)
    (baseUri : string) : Request :=
  let url := Url.new_URL (String.append baseUri uri) in
  let wire := JsString.toUpperCase (JsString.replace_json_end method) in
  if JsString.includes "json" method then
    let url := append_query (query options) url in
    let body := if truthy (data options) then JSON.stringify (data options) else None in
    mkRequest (Url.toString url) wire (headers options) body
  else
    let url := append_query (query options) url in
    mkRequest (Url.toString url) wire JUndefined None.

(** [makeRequest].  The recursion on a 429 has no bound in the source, so
    the embedding counts attempts: [None] means that [fuel] attempts were
    made and every one was answered 429. *)
Fixpoint makeRequest (fuel : nat) (method uri : string) (options : RequestOptions)
    (baseUri : string) (w : World) : World * option Outcome :=
  match fuel with
  | O => (w, None)
  | S fuel' =>
      let (result, w1) := fetch (build_request method uri options baseUri) w in
      match result with
      | FetchRejected reason => (w1, Some (Rejected (FetchFailure reason)))
      | FetchResolved response =>
          if (status response =? 429)%Z then
            let delay := backoff_delay (Math_random w1) in
            let w2 := setTimeout delay w1 in
            makeRequest fuel' method uri options baseUri w2
          else if negb (ok response) then
            (w1, Some (Rejected (ErrorWithResponse (text response) response)))
          else
            match json response with
            | Some value => (w1, Some (Resolved value))
            | None => (w1, Some (Rejected JsonSyntaxError))
            end
      end
  end.

Definition default_baseUri : string := "https://api.trello.com".

(** The string form of every query entry, in the order of
    [Object.entries]. *)
Definition stringified (q : Props) : list (string * string) :=
  List.map (fun kv => (fst kv, ToString (snd kv))) (entries (JObj q)).

(** The world after [k] attempts that were all answered 429. *)
Fixpoint retried (k : nat) (req : Request) (w : World) : World :=
  match k with
  | O => w
  | S k' =>
      let w1 := snd (fetch req w) in
      retried k' req (setTimeout (backoff_delay (Math_random w1)) w1)
  end.

(** [error.message] and [error.response] of a rejection. *)
Definition error_message (e : Failure) : string :=
  match e with
  | ErrorWithResponse m _ => m
  | TypeError m => m
  | FetchFailure m => m
  | JsonSyntaxError => "Unexpected end of JSON input"
  end.

Definition error_response (e : Failure) : option Response :=
  match e with
  | ErrorWithResponse _ r => Some r
  | _ => None
  end.

(** The transport answers 429 to every invocation. *)
Definition sustained_429 (w : World) : Prop :=
  forall i req, exists r, transport w i req = FetchResolved r /\ status r = 429.

End Http.

(** ** The facade's generic entry point: [Trello.makeRequest] in [src/trello.ts] *)

Module Facade.
Import Js Http.

Record Trello : Type := mkTrello {
  uri : string;
  key : string;
  token : string
}.

(** [createQuery()]. *)
Definition createQuery (this : Trello) : Props :=
  [("key", JStr (key this)); ("token", JStr (token this))].

(** The objects the caller holds, by reference: a store from locations,
    which are numbers, to objects. *)
Abbreviation Store := (gmap nat JsVal).

(** An argument is a value of its own (a primitive, or an object literal
    nobody else refers to) or a reference to an object of the store. *)
Inductive Param : Type :=
| ByValue (v : JsVal)
| ByRef (l : nat).

Definition deref (s : Store) (p : Param) : JsVal :=
  match p with
  | ByValue v => v
  | ByRef l => default JUndefined (s !! l)
  end.

(** [delete options.data]: the object [options] refers to loses its own
    property [data]; an array has no such property. *)
Definition delete_data (p : Param) (s : Store) : Store :=
  match p with
  | ByValue _ => s
  | ByRef l =>
      alter (fun v => match v with
                      | JObj ps => JObj (delete_prop "data" ps)
                      | _ => v
                      end) l s
  end.

Definition json_headers : JsVal := JObj [("Content-Type", JStr "application/json")].

(** [Trello.makeRequest({ requestMethod, path, options })].  An exception
    thrown in the body of the [async] method is the rejection of its
    promise. *)
Definition makeRequest (fuel : nat) (this : Trello) (requestMethod : JsVal)
    (path : string) (options : Param) (s : Store) (w : World)
    : Store * World * option Outcome :=
  let options := match options with
                 | ByValue JUndefined => ByValue (JObj [])
                 | _ => options
                 end in
  if negb (String.eqb (typeof requestMethod) "string") then
    (s, w, Some (Rejected (TypeError "requestMethod should be a string")))
  else if negb (String.eqb (typeof (deref s options)) "object") then
    (s, w, Some (Rejected (TypeError "options should be an object")))
  else
    (* [requestMethod as RequestMethod]: a cast, the string itself *)
    let method := ToString requestMethod in
    let keyTokenObj := createQuery this in
    let query := spread (spread [] (deref s options)) (JObj keyTokenObj) in
    if String.eqb method "POST_JSON" || String.eqb method "PUT_JSON" then
      match get (deref s options) "data" with
      | None =>
          (s, w, Some (Rejected (TypeError "Cannot read properties of null")))
      | Some d =>
          let jsonOptions := mkOptions json_headers d query in
          let s' := delete_data options s in
          let (w', r) := Http.makeRequest fuel method path jsonOptions (uri this) w in
          (s', w', r)
      end
    else
      let (w', r) :=
        Http.makeRequest fuel method path (mkOptions JUndefined JUndefined query) (uri this) w in
      (s, w', r).

End Facade.

(** ** Sample data used by the examples below *)

Module Sample.
Import Js Http.

Definition rate_limited : Response := mkResponse false 429 "Rate limit exceeded" None.
Definition success (v : JsVal) : Response := mkResponse true 200 EmptyString (Some v).
Definition not_found : Response := mkResponse false 404 "Not Found" None.

(** A transport that answers 429 to its first [n] invocations and then
    [r]. *)
Definition throttled (n : nat) (r : Response) : nat -> Request -> FetchResult :=
  fun i _ => if (i <? n)%nat then FetchResolved rate_limited else FetchResolved r.

(** A transport that answers 429 for ever. *)
Definition always_throttled : nat -> Request -> FetchResult :=
  fun _ _ => FetchResolved rate_limited.

Definition world (t : nat -> Request -> FetchResult) : World :=
  mkWorld t (fun _ => 0%Q) [] [].

Definition auth : Props := [("key", JStr "k"); ("token", JStr "t")].
Definition form (q : Props) : RequestOptions := mkOptions JUndefined JUndefined q.
Definition card_query : Props := auth ++ [("name", JStr "Card Title")].
(** A query whose last created property has an array index as its key. *)
Definition indexed_query : Props := card_query ++ [("7", JStr "x")].
Definition payload : JsVal := JObj [("success", JBool true)].
Definition a1 : JsVal := JObj [("a", JNum 1)].
(** The text of [JSON.stringify({a:1})]. *)
Definition a1_json : string :=
  String.append "{"
    (String JsString.dquote (String.append "a" (String JsString.dquote ":1}"))).
Definition json_options (d : JsVal) : RequestOptions :=
  mkOptions (JObj [("Content-Type", JStr "application/json")]) d auth.
Definition client : Facade.Trello := Facade.mkTrello default_baseUri "k" "t".

(** The options object a caller keeps at location 0 of the store. *)
Definition custom_field : Props := [("data", a1); ("name", JStr "Priority")].
Definition caller_store : gmap nat JsVal := {[ 0%nat := JObj custom_field ]}.

End Sample.

(** ** Reading a URL back: [new URL(text)] on a request URL and
    [getQueryParams] of [tests/utils.ts] *)

Module UrlParser.
Import Js.

(** The pieces of [s] between the occurrences of [c]. *)
Fixpoint split_on (c : ascii) (s : string) : list string :=
  match s with
  | EmptyString => [EmptyString]
  | String a s' =>
      if Ascii.eqb a c then EmptyString :: split_on c s'
      else match split_on c s' with
           | h :: t => String a h :: t
           | [] => [String a EmptyString]
           end
  end.

(** [s] up to the first [c], and what follows it if [c] occurs. *)
Fixpoint cut_at (c : ascii) (s : string) : string * option string :=
  match s with
  | EmptyString => (EmptyString, None)
  | String a s' =>
      if Ascii.eqb a c then (EmptyString, Some s')
      else let (before, rest) := cut_at c s' in (String a before, rest)
  end.

Definition hex_value (c : ascii) : option nat :=
  let n := Ascii.nat_of_ascii c in
  if ((48 <=? n) && (n <=? 57))%nat then Some (n - 48)%nat
  else if ((65 <=? n) && (n <=? 70))%nat then Some (n - 55)%nat
  else if ((97 <=? n) && (n <=? 102))%nat then Some (n - 87)%nat
  else None.

(** Percent-decoding: a percent sign followed by two hexadecimal digits is
    the byte they denote, anything else stays. *)
Fixpoint percent_decode (s : string) : string :=
  match s with
  | EmptyString => EmptyString
  | String c s' =>
      if Ascii.eqb c "%" then
        match s' with
        | String h (String l s'') =>
            match hex_value h, hex_value l with
            | Some a, Some b =>
                String (Ascii.ascii_of_nat (16 * a + b)) (percent_decode s'')
            | _, _ => String c (percent_decode s')
            end
        | _ => String c (percent_decode s')
        end
      else String c (percent_decode s')
  end.

Fixpoint plus_to_space (s : string) : string :=
  match s with
  | EmptyString => EmptyString
  | String c s' => String (if Ascii.eqb c "+" then " "%char else c) (plus_to_space s')
  end.

Definition decode (s : string) : string := percent_decode (plus_to_space s).

Definition parse_pair (seq : string) : string * string :=
  let (name, value) := cut_at "=" seq in
  (decode name, decode (match value with Some v => v | None => EmptyString end)).

(** The [application/x-www-form-urlencoded] parser: the sequences between
    ampersands, the empty ones skipped, each cut at its first equals sign. *)
Definition parse (q : string) : list (string * string) :=
  List.map parse_pair
    (List.filter (fun seq => negb (String.eqb seq EmptyString)) (split_on "&" q)).

(** [new URL(text)] for the text of a request URL: the fragment is set
    aside, the query is what follows the first question mark. *)
Definition parse_href (text : string) : Url.URL :=
  let (no_fragment, _) := cut_at "#" text in
  let (base, q) := cut_at "?" no_fragment in
  Url.mkURL base (parse (match q with Some q => q | None => EmptyString end)).

(** [getQueryParams(url)]: [params[key] = value] for every search
    parameter in turn. *)
Definition getQueryParams (url : string) : Props :=
  List.fold_left (fun params kv => set_prop (fst kv) (JStr (snd kv)) params)
    (Url.searchParams (parse_href url)) [].

(** [c] does not occur in [s]. *)
Fixpoint free_of (c : ascii) (s : string) : bool :=
  match s with
  | EmptyString => true
  | String a s' => negb (Ascii.eqb a c) && free_of c s'
  end.

End UrlParser.

(** ** The client class: constructor and entity methods of [src/trello.ts] *)

Module Client.
Import Js Http Facade.

(** The first argument of the constructor: the key, or a configuration
    object. *)
Inductive KeyOrConfig : Type :=
| KeyString (key : string)
| KeyConfig (apiKey apiToken : string).

Inductive Constructed : Type :=
| Built (client : Trello)
| Thrown (message : string).

Definition nonempty (s : string) : bool := negb (String.eqb s EmptyString).

(** [new Trello(keyOrConfig, token)]; [token = None] is an argument left
    out. *)
Definition new_Trello (keyOrConfig : KeyOrConfig) (token : option string) : Constructed :=
  let uri := "https://api.trello.com" in
  match keyOrConfig with
  | KeyString key =>
      match token with
      | Some t =>
          if nonempty t then Built (mkTrello uri key t)
          else Thrown "Token is required when providing key as a string"
      | None => Thrown "Token is required when providing key as a string"
      end
  | KeyConfig apiKey apiToken =>
      if negb (nonempty apiKey) || negb (nonempty apiToken) then
        Thrown "apiKey and apiToken are required in the configuration object"
      else Built (mkTrello uri apiKey apiToken)
  end.

Definition form_options (q : Props) : RequestOptions := mkOptions JUndefined JUndefined q.
Definition data_options (d : JsVal) (q : Props) : RequestOptions := mkOptions JUndefined d q.

Definition path2 (a b : string) : string := String.append a b.
Definition path3 (a b c : string) : string := String.append a (String.append b c).
Definition path4 (a b c d : string) : string :=
  String.append a (String.append b (String.append c d)).

(** [addBoard({ name, description, organizationId })]; [None] is [null] or
    a field left out. *)
Definition addBoard (fuel : nat) (this : Trello) (name : string)
    (description organizationId : option string) (w : World) : World * option Outcome :=
  let query := createQuery this in
  let query := set_prop "name" (JStr name) query in
  let query := match description with
               | Some d => set_prop "desc" (JStr d) query
               | None => query
               end in
  let query := match organizationId with
               | Some o => set_prop "idOrganization" (JStr o) query
               | None => query
               end in
  Http.makeRequest fuel "POST" "/1/boards/" (form_options query) (uri this) w.

Definition addCard (fuel : nat) (this : Trello) (name : string)
    (description : option string) (listId : string) (w : World) : World * option Outcome :=
  let query := createQuery this in
  let query := set_prop "name" (JStr name) query in
  let query := set_prop "idList" (JStr listId) query in
  let query := match description with
               | Some d => set_prop "desc" (JStr d) query
               | None => query
               end in
  Http.makeRequest fuel "POST" "/1/cards" (form_options query) (uri this) w.

(** The query of [addCardWithExtraParams]: [Object.assign(query,
    extraParams)] comes last. *)
Definition addCardWithExtraParams_query (this : Trello) (name : string)
    (extraParams : JsVal) (listId : string) : Props :=
  let query := createQuery this in
  let query := set_prop "name" (JStr name) query in
  let query := set_prop "idList" (JStr listId) query in
  spread query extraParams.

Definition addCardWithExtraParams (fuel : nat) (this : Trello) (name : string)
    (extraParams : JsVal) (listId : string) (w : World) : World * option Outcome :=
  Http.makeRequest fuel "POST" "/1/cards"
    (form_options (addCardWithExtraParams_query this name extraParams listId)) (uri this) w.

(** [getCard({ boardId, cardId })]; [boardId = None] is [null]. *)
Definition getCard (fuel : nat) (this : Trello) (boardId : option string) (cardId : string)
    (w : World) : World * option Outcome :=
  match boardId with
  | None =>
      Http.makeRequest fuel "GET" (path2 "/1/cards/" cardId)
        (form_options (createQuery this)) (uri this) w
  | Some b =>
      Http.makeRequest fuel "GET" (path4 "/1/boards/" b "/cards/" cardId)
        (form_options (createQuery this)) (uri this) w
  end.

Definition getCardById (fuel : nat) (this : Trello) (cardId : string) (w : World)
    : World * option Outcome :=
  Http.makeRequest fuel "GET" (path2 "/1/cards/" cardId)
    (form_options (createQuery this)) (uri this) w.

(** [getCardsForList({ listId, actions })]; [actions = None] is a field
    left out, and [if (actions)] is the truthiness of a string. *)
Definition getCardsForList (fuel : nat) (this : Trello) (listId : string)
    (actions : option string) (w : World) : World * option Outcome :=
  let query := createQuery this in
  let query := match actions with
               | Some a => if nonempty a then set_prop "actions" (JStr a) query else query
               | None => query
               end in
  Http.makeRequest fuel "GET" (path3 "/1/lists/" listId "/cards") (form_options query)
    (uri this) w.

(** [addMemberToBoard({ boardId, memberId, type })]: the payload is
    [{ data, query }] with [data = { type }]. *)
Definition addMemberToBoard (fuel : nat) (this : Trello) (boardId memberId type : string)
    (w : World) : World * option Outcome :=
  let query := createQuery this in
  let data := JObj [("type", JStr type)] in
  Http.makeRequest fuel "PUT" (path4 "/1/boards/" boardId "/members/" memberId)
    (data_options data query) (uri this) w.

Definition updateCard (fuel : nat) (this : Trello) (cardId field value : string) (w : World)
    : World * option Outcome :=
  let query := createQuery this in
  let query := set_prop "value" (JStr value) query in
  Http.makeRequest fuel "PUT" (path4 "/1/cards/" cardId "/" field) (form_options query)
    (uri this) w.

Definition updateCardName (fuel : nat) (this : Trello) (cardId name : string) (w : World)
    : World * option Outcome :=
  updateCard fuel this cardId "name" name w.

Definition updateCardDescription (fuel : nat) (this : Trello) (cardId description : string)
    (w : World) : World * option Outcome :=
  updateCard fuel this cardId "desc" description w.

Definition updateCardList (fuel : nat) (this : Trello) (cardId listId : string) (w : World)
    : World * option Outcome :=
  updateCard fuel this cardId "idList" listId w.

(** The query of [getCardsOnBoardWithExtraParams]: [query.fields = fields]
    comes after [Object.assign(query, extraParams)]; [fields = None] is the
    default ['all']. *)
Definition getCardsOnBoardWithExtraParams_query (this : Trello) (extraParams : JsVal)
    (fields : option string) : Props :=
  let fields := match fields with Some f => f | None => "all" end in
  let query := createQuery this in
  let query := spread query extraParams in
  set_prop "fields" (JStr fields) query.

Definition getCardsOnBoardWithExtraParams (fuel : nat) (this : Trello) (boardId : string)
    (extraParams : JsVal) (fields : option string) (w : World) : World * option Outcome :=
  Http.makeRequest fuel "GET" (path3 "/1/boards/" boardId "/cards")
    (form_options (getCardsOnBoardWithExtraParams_query this extraParams fields)) (uri this) w.

(** [setCustomFieldOnCard(cardId, customFieldId, value)]: the payload is
    [{ data: value, query }]. *)
Definition setCustomFieldOnCard (fuel : nat) (this : Trello) (cardId customFieldId : string)
    (value : JsVal) (w : World) : World * option Outcome :=
  Http.makeRequest fuel "PUT"
    (String.append "/1/card/" (path4 cardId "/customField/" customFieldId "/item"))
    (data_options value (createQuery this)) (uri this) w.

(** [updateCustomFieldOnCard(cardId, fieldId, value)]: the payload has
    the JSON headers and [data = { value }]. *)
Definition updateCustomFieldOnCard (fuel : nat) (this : Trello) (cardId fieldId : string)
    (value : JsVal) (w : World) : World * option Outcome :=
  let options := mkOptions json_headers (JObj [("value", value)]) (createQuery this) in
  Http.makeRequest fuel "PUT"
    (String.append "/1/cards/" (path4 cardId "/customField/" fieldId "/item"))
    options (uri this) w.

(** [addReactionToAction(actionId, reaction)]: the payload has the JSON
    headers and [data = reaction]. *)
Definition addReactionToAction (fuel : nat) (this : Trello) (actionId : string)
    (reaction : JsVal) (w : World) : World * option Outcome :=
  Http.makeRequest fuel "POST" (path3 "/1/actions/" actionId "/reactions")
    (mkOptions json_headers reaction (createQuery this)) (uri this) w.

(** The query of [getActionReactions] and [getActionReaction]: [params =
    None] is the argument left out, a field [None] is [undefined]. *)
Definition reactions_query (this : Trello) (params : option (option bool * option bool))
    : Props :=
  let query := createQuery this in
  match params with
  | Some (member, emoji) =>
      let query := match member with
                   | Some m => set_prop "member" (JBool m) query
                   | None => query
                   end in
      match emoji with
      | Some e => set_prop "emoji" (JBool e) query
      | None => query
      end
  | None => query
  end.

Definition getActionReactions (fuel : nat) (this : Trello) (actionId : string)
    (params : option (option bool * option bool)) (w : World) : World * option Outcome :=
  Http.makeRequest fuel "GET" (path3 "/1/actions/" actionId "/reactions")
    (form_options (reactions_query this params)) (uri this) w.

(** [addWebhook(description, callbackUrl, idModel)]: the client's token is
    part of the path. *)
Definition addWebhook (fuel : nat) (this : Trello) (description callbackUrl idModel : string)
    (w : World) : World * option Outcome :=
  let query := createQuery this in
  let data := JObj [("description", JStr description); ("callbackURL", JStr callbackUrl);
                    ("idModel", JStr idModel)] in
  Http.makeRequest fuel "POST" (path3 "/1/tokens/" (token this) "/webhooks/")
    (data_options data query) (uri this) w.

(** The values of the type [RequestMethod] of [src/types.ts]. *)
Definition RequestMethod_values : list string :=
  ["post"; "get"; "put"; "delete"; "postjson"; "putjson"].

End Client.

(** ** What one answer of the transport makes of a call *)

Module Attempt.
Import Js Http.

(** The end of the call that an answer decides, [None] for a 429, which
    decides nothing. *)
Definition settle (answer : FetchResult) : option Outcome :=
  match answer with
  | FetchRejected reason => Some (Rejected (FetchFailure reason))
  | FetchResolved r =>
      if (status r =? 429)%Z then None
      else if ok r then
        match json r with
        | Some v => Some (Resolved v)
        | None => Some (Rejected JsonSyntaxError)
        end
      else Some (Rejected (ErrorWithResponse (text r) r))
  end.

(** The total of the delays of a list of timers. *)
Definition total_delay (ds : list Z) : Z := List.fold_right Z.add 0 ds.

(** What a call does, in the order it does it. *)
Inductive Event : Type :=
| Fetched (req : Request)
| Slept (delay : Z).

(** The events of [makeRequest], read off the same lines as
    [Http.makeRequest]: the fetch of line 54, then, on a 429, the timer of
    line 60 and the events of the call of line 61. *)
Fixpoint makeRequest_events (fuel : nat) (method uri : string) (options : RequestOptions)
    (baseUri : string) (w : World) : list Event :=
  match fuel with
  | O => []
  | S fuel' =>
      let (result, w1) := fetch (build_request method uri options baseUri) w in
      Fetched (build_request method uri options baseUri)
      :: match result with
         | FetchRejected _ => []
         | FetchResolved response =>
             if (status response =? 429)%Z then
               let delay := backoff_delay (Math_random w1) in
               let w2 := setTimeout delay w1 in
               Slept delay :: makeRequest_events fuel' method uri options baseUri w2
             else []
         end
  end.

(** A fetch of [req] and a timer for every delay of [ds], in turn. *)
Definition retries (req : Request) (ds : list Z) : list Event :=
  List.flat_map (fun d => [Fetched req; Slept d]) ds.

End Attempt.

(** ** Properties of the transport core *)

Module HttpFacts.
Import Js Http.

Section Call.
Variables (method uri : string) (options : RequestOptions) (baseUri : string).

Let req : Request := build_request method uri options baseUri.
Let run (fuel : nat) (w : World) : World * option Outcome :=
  makeRequest fuel method uri options baseUri w.

Lemma retried_transport k : forall w, transport (retried k req w) = transport w.
Proof. induction k as [|k IH]; intros w; simpl; [reflexivity|]. now rewrite IH. Qed.

Lemma retried_calls k : forall w, calls (retried k req w) = calls w ++ repeat req k.
Proof.
  induction k as [|k IH]; intros w; simpl.
  - now rewrite app_nil_r.
  - rewrite IH. simpl. now rewrite <- app_assoc.
Qed.

Lemma retried_timers_length k :
  forall w, length (timers (retried k req w)) = (length (timers w) + k)%nat.
Proof.
  induction k as [|k IH]; intros w; simpl; [lia|].
  rewrite IH. simpl. rewrite length_app. simpl. lia.
Qed.

(** One attempt answered 429 costs one unit of fuel and leaves the call
    where it started, in the world with one more invocation and one
    more timer. *)
Lemma makeRequest_429 fuel w r :
  transport w (length (calls w)) req = FetchResolved r ->
  status r = 429 ->
  run (S fuel) w = run fuel (retried 1 req w).
Proof.
  intros Ht Hs. unfold run. simpl. fold req. rewrite Ht, Hs. reflexivity.
Qed.

Lemma makeRequest_retried k :
  forall fuel w,
    (forall i, (i < k)%nat ->
       exists r, transport w (length (calls w) + i) req = FetchResolved r /\ status r = 429) ->
    run (k + fuel) w = run fuel (retried k req w).
Proof.
  induction k as [|k IH]; intros fuel w H; [reflexivity|].
  destruct (H 0%nat ltac:(lia)) as (r & Hr & Hs). rewrite Nat.add_0_r in Hr.
  change (S k + fuel)%nat with (S (k + fuel)).
  rewrite (makeRequest_429 _ _ _ Hr Hs). simpl retried.
  apply IH. intros i Hi. destruct (H (S i) ltac:(lia)) as (r' & Hr' & Hs').
  exists r'. split; [|exact Hs']. simpl. rewrite length_app. simpl.
  replace (length (calls w) + 1 + i)%nat with (length (calls w) + S i)%nat by lia.
  exact Hr'.
Qed.

(** An attempt answered with anything but 429 ends the call. *)
Lemma makeRequest_final fuel w r :
  transport w (length (calls w)) req = FetchResolved r ->
  status r <> 429 ->
  run (S fuel) w =
    (snd (fetch req w),
     Some (if ok r
           then match json r with
                | Some v => Resolved v
                | None => Rejected JsonSyntaxError
                end
           else Rejected (ErrorWithResponse (text r) r))).
Proof.
  intros Ht Hs. unfold run. simpl. fold req. rewrite Ht.
  destruct (Z.eqb_spec (status r) 429) as [E|_]; [contradiction|].
  destruct (ok r); simpl; [destruct (json r)|]; reflexivity.
Qed.

End Call.

(** C1. Retry then succeed: when the transport answers 429 to the first
    invocation and a 2xx response whose JSON body is [Y] to the second, the
    call resolves to [Y], the transport has been invoked exactly twice, and
    the second request is the first one again (same wire method, same URL
    with its query string, same headers and body); one backoff timer has
    been set in between. *)
Theorem retry_then_succeed
    (method uri : string) (options : RequestOptions) (baseUri : string)
    (w : World) (r1 r2 : Response) (Y : JsVal) (fuel : nat) :
  transport w (length (calls w)) (build_request method uri options baseUri)
    = FetchResolved r1 ->
  status r1 = 429 ->
  transport w (S (length (calls w))) (build_request method uri options baseUri)
    = FetchResolved r2 ->
  ok r2 = true ->
  200 <= status r2 <= 299 ->
  json r2 = Some Y ->
  (2 <= fuel)%nat ->
  exists w',
    makeRequest fuel method uri options baseUri w = (w', Some (Resolved Y))
    /\ calls w' = calls w ++ [build_request method uri options baseUri;
                              build_request method uri options baseUri]
    /\ length (timers w') = S (length (timers w)).
Proof.
  intros H1 S1 H2 Ok2 S2 J2 Hfuel.
  destruct fuel as [|[|fuel]]; try lia.
  exists (snd (fetch (build_request method uri options baseUri)
                 (retried 1 (build_request method uri options baseUri) w))).
  rewrite (makeRequest_429 method uri options baseUri (S fuel) w r1 H1 S1).
  assert (Hlen : length (calls (retried 1 (build_request method uri options baseUri) w))
                 = S (length (calls w))).
  { rewrite retried_calls, length_app. simpl. lia. }
  rewrite (makeRequest_final method uri options baseUri fuel _ r2).
  - rewrite Ok2, J2. split; [reflexivity|]. split.
    + simpl. now rewrite <- app_assoc.
    + simpl. rewrite length_app. simpl. lia.
  - rewrite Hlen. exact H2.
  - lia.
Qed.

Lemma retry_then_succeed_witness :
  exists w',
    makeRequest 2 "get" "/test" (Sample.form Sample.auth) default_baseUri
      (Sample.world (Sample.throttled 1 (Sample.success Sample.payload)))
      = (w', Some (Resolved Sample.payload))
    /\ calls w' =
         [] ++ [build_request "get" "/test" (Sample.form Sample.auth) default_baseUri;
                build_request "get" "/test" (Sample.form Sample.auth) default_baseUri]
    /\ length (timers w') = 1%nat.
Proof.
  apply (retry_then_succeed "get" "/test" (Sample.form Sample.auth) default_baseUri
           (Sample.world (Sample.throttled 1 (Sample.success Sample.payload)))
           Sample.rate_limited (Sample.success Sample.payload) Sample.payload 2).
  - reflexivity.
  - reflexivity.
  - reflexivity.
  - reflexivity.
  - simpl; lia.
  - reflexivity.
  - lia.
Defined.

(** C2. No retry ceiling: a transport that answers 429 to its first [n]
    invocations and then anything else is invoked [n + 1] times, more than
    [n], before the call ends; and under a transport that answers 429 to
    every invocation the call is still unfinished after any number of
    attempts, each of which has invoked the transport once more. *)
Theorem unbounded_retry
    (method uri : string) (options : RequestOptions) (baseUri : string) (w : World) :
  sustained_429 w ->
  (forall n t rnd r,
     (forall i, (i < n)%nat ->
        exists r', t i (build_request method uri options baseUri) = FetchResolved r'
                   /\ status r' = 429) ->
     t n (build_request method uri options baseUri) = FetchResolved r ->
     status r <> 429 ->
     exists w' out,
       makeRequest (S n) method uri options baseUri (mkWorld t rnd [] []) = (w', Some out)
       /\ length (calls w') = S n)
  /\ (forall fuel,
        snd (makeRequest fuel method uri options baseUri w) = None
        /\ length (calls (fst (makeRequest fuel method uri options baseUri w)))
           = (length (calls w) + fuel)%nat).
Proof.
  intros H. split.
  - intros n t rnd r Hn Hr Hs.
    replace (S n) with (n + 1)%nat by lia.
    rewrite makeRequest_retried by (intros i Hi; simpl; apply Hn, Hi).
    eexists _, _. rewrite (makeRequest_final _ _ _ _ 0 _ r); [split; [reflexivity|]| |exact Hs].
    + simpl. rewrite length_app, retried_calls. simpl. rewrite repeat_length. lia.
    + rewrite retried_transport, retried_calls. simpl. rewrite repeat_length. exact Hr.
  - intros fuel.
    pose proof (makeRequest_retried method uri options baseUri fuel 0 w) as E.
    rewrite Nat.add_0_r in E. rewrite E by (intros i _; apply H).
    simpl. split; [reflexivity|].
    rewrite retried_calls, length_app, repeat_length. reflexivity.
Qed.

Lemma unbounded_retry_witness :
  (forall n t rnd r,
     (forall i, (i < n)%nat ->
        exists r', t i (build_request "get" "/test" (Sample.form Sample.auth) default_baseUri)
                   = FetchResolved r'
                   /\ status r' = 429) ->
     t n (build_request "get" "/test" (Sample.form Sample.auth) default_baseUri)
       = FetchResolved r ->
     status r <> 429 ->
     exists w' out,
       makeRequest (S n) "get" "/test" (Sample.form Sample.auth) default_baseUri
         (mkWorld t rnd [] []) = (w', Some out)
       /\ length (calls w') = S n)
  /\ (forall fuel,
        snd (makeRequest fuel "get" "/test" (Sample.form Sample.auth) default_baseUri
               (Sample.world Sample.always_throttled)) = None
        /\ length (calls (fst (makeRequest fuel "get" "/test" (Sample.form Sample.auth)
                                 default_baseUri (Sample.world Sample.always_throttled))))
           = (0 + fuel)%nat).
Proof.
  apply (unbounded_retry "get" "/test" (Sample.form Sample.auth) default_baseUri
           (Sample.world Sample.always_throttled)).
  intros i req. exists Sample.rate_limited. split; reflexivity.
Defined.

(** C5. Error surfacing: a response that is not [ok] and whose status is
    not 429 makes the call reject, after that single invocation, with an
    error whose message is the text of the response body and whose
    [response] property is the response itself, status included. *)
Theorem error_surfacing
    (method uri : string) (options : RequestOptions) (baseUri : string)
    (w : World) (r : Response) (fuel : nat) :
  transport w (length (calls w)) (build_request method uri options baseUri)
    = FetchResolved r ->
  ok r = false ->
  status r <> 429 ->
  exists w' e,
    makeRequest (S fuel) method uri options baseUri w = (w', Some (Rejected e))
    /\ error_message e = text r
    /\ error_response e = Some r
    /\ option_map status (error_response e) = Some (status r)
    /\ calls w' = calls w ++ [build_request method uri options baseUri].
Proof.
  intros Ht Hok Hs.
  exists (snd (fetch (build_request method uri options baseUri) w)),
         (ErrorWithResponse (text r) r).
  rewrite (makeRequest_final method uri options baseUri fuel w r Ht Hs), Hok.
  repeat split.
Qed.

Lemma error_surfacing_witness :
  exists w' e,
    makeRequest 1 "get" "/test" (Sample.form Sample.auth) default_baseUri
      (Sample.world (Sample.throttled 0 Sample.not_found)) = (w', Some (Rejected e))
    /\ error_message e = "Not Found"
    /\ error_response e = Some Sample.not_found
    /\ option_map status (error_response e) = Some 404
    /\ calls w' = [] ++ [build_request "get" "/test" (Sample.form Sample.auth) default_baseUri].
Proof.
  apply (error_surfacing "get" "/test" (Sample.form Sample.auth) default_baseUri
           (Sample.world (Sample.throttled 0 Sample.not_found)) Sample.not_found 0).
  - reflexivity.
  - reflexivity.
  - simpl; lia.
Defined.

(** C6. Success passthrough: a response that is [ok] (hence not a 429) and
    whose JSON body parses to [X] makes the call resolve to [X] itself, after
    that single invocation, whatever value [X] is. *)
Theorem success_passthrough
    (method uri : string) (options : RequestOptions) (baseUri : string)
    (w : World) (r : Response) (X : JsVal) (fuel : nat) :
  transport w (length (calls w)) (build_request method uri options baseUri)
    = FetchResolved r ->
  ok r = true ->
  status r <> 429 ->
  json r = Some X ->
  exists w',
    makeRequest (S fuel) method uri options baseUri w = (w', Some (Resolved X))
    /\ calls w' = calls w ++ [build_request method uri options baseUri]
    /\ timers w' = timers w.
Proof.
  intros Ht Hok Hs Hj.
  exists (snd (fetch (build_request method uri options baseUri) w)).
  rewrite (makeRequest_final method uri options baseUri fuel w r Ht Hs), Hok, Hj.
  repeat split.
Qed.

Lemma success_passthrough_witness :
  exists w',
    makeRequest 1 "get" "/test" (Sample.form Sample.auth) default_baseUri
      (Sample.world (Sample.throttled 0 (Sample.success (JArr [JObj []; JNum 1]))))
      = (w', Some (Resolved (JArr [JObj []; JNum 1])))
    /\ calls w' = [] ++ [build_request "get" "/test" (Sample.form Sample.auth) default_baseUri]
    /\ timers w' = [].
Proof.
  apply (success_passthrough "get" "/test" (Sample.form Sample.auth) default_baseUri
           (Sample.world (Sample.throttled 0 (Sample.success (JArr [JObj []; JNum 1]))))
           (Sample.success (JArr [JObj []; JNum 1])) (JArr [JObj []; JNum 1]) 0).
  - reflexivity.
  - reflexivity.
  - simpl; lia.
  - reflexivity.
Defined.

End HttpFacts.

(** ** The enumeration order of an object *)

Module ObjectFacts.
Import Js.

Lemma insert_by_index_perm (kv : string * JsVal) (l : Props) :
  Permutation (insert_by_index kv l) (kv :: l).
Proof.
  induction l as [|kv' l IH]; simpl; [reflexivity|].
  destruct (index_of kv <? index_of kv')%N; [reflexivity|].
  rewrite IH. apply perm_swap.
Qed.

Lemma sort_by_index_perm (l : Props) : Permutation (sort_by_index l) l.
Proof.
  induction l as [|kv l IH]; simpl; [reflexivity|].
  rewrite insert_by_index_perm. now constructor.
Qed.

Lemma filter_partition_perm {A : Type} (p : A -> bool) (l : list A) :
  Permutation (List.filter p l ++ List.filter (fun x => negb (p x)) l) l.
Proof.
  induction l as [|x l IH]; simpl; [reflexivity|].
  destruct (p x); simpl.
  - now constructor.
  - rewrite <- Permutation_middle. now constructor.
Qed.

(** Enumeration reorders the properties and neither drops nor adds one. *)
Lemma enumerate_perm (ps : Props) : Permutation (enumerate ps) ps.
Proof.
  unfold enumerate. rewrite sort_by_index_perm. apply filter_partition_perm.
Qed.

Lemma enumerate_In (x : string * JsVal) (ps : Props) : In x (enumerate ps) <-> In x ps.
Proof.
  split; apply Permutation_in; [|symmetry]; apply enumerate_perm.
Qed.

(** An object none of whose keys is an array index is enumerated in the
    order its properties were created. *)
Lemma enumerate_no_index (ps : Props) :
  List.forallb (fun kv => negb (is_index kv)) ps = true -> enumerate ps = ps.
Proof.
  unfold enumerate. induction ps as [|kv ps IH]; simpl; [reflexivity|].
  destruct (is_index kv); simpl; [discriminate|]. intros H.
  specialize (IH H).
  destruct (List.filter is_index ps) as [|a l] eqn:E.
  - simpl in *. now rewrite IH.
  - exfalso. assert (Hin : In a (List.filter is_index ps)) by (rewrite E; now left).
    apply List.filter_In in Hin as [Hin Ha].
    rewrite List.forallb_forall in H. specialize (H a Hin). rewrite Ha in H. discriminate.
Qed.

Lemma insert_by_index_sorted (kv : string * JsVal) (l : Props) :
  StronglySorted (fun a b => (index_of a <= index_of b)%N) l ->
  StronglySorted (fun a b => (index_of a <= index_of b)%N) (insert_by_index kv l).
Proof.
  induction 1 as [|kv' l Hs IH Hall]; simpl.
  - constructor; constructor.
  - destruct (N.ltb_spec (index_of kv) (index_of kv')) as [Hlt|Hge].
    + constructor; [now constructor|]. constructor; [lia|].
      eapply List.Forall_impl; [|exact Hall]. simpl. intros b Hb. lia.
    + constructor; [exact IH|].
      assert (P : Permutation (insert_by_index kv l) (kv :: l))
        by apply insert_by_index_perm.
      rewrite List.Forall_forall. intros b Hb.
      apply (Permutation_in _ P) in Hb. destruct Hb as [<-|Hb]; [exact Hge|].
      rewrite List.Forall_forall in Hall. now apply Hall.
Qed.

(** The array indices come out in ascending order. *)
Lemma sort_by_index_sorted (l : Props) :
  StronglySorted (fun a b => (index_of a <= index_of b)%N) (sort_by_index l).
Proof.
  induction l as [|kv l IH]; simpl; [constructor|]. now apply insert_by_index_sorted.
Qed.

Lemma lookup_prop_None (k : string) (ps : Props) :
  lookup_prop k ps = None <-> ~ In k (List.map fst ps).
Proof.
  induction ps as [|[k0 v0] ps IH]; simpl; [tauto|].
  destruct (String.eqb_spec k k0) as [->|Hne].
  - split; [discriminate|]. intros H. exfalso. apply H. now left.
  - rewrite IH. split; [intros H [E|Hin]; [congruence|contradiction]|tauto].
Qed.

Lemma lookup_prop_Some (k : string) (v : JsVal) (ps : Props) :
  NoDup (List.map fst ps) ->
  (lookup_prop k ps = Some v <-> In (k, v) ps).
Proof.
  induction ps as [|[k0 v0] ps IH]; simpl; intros Hnd.
  - split; [discriminate|tauto].
  - apply NoDup_cons in Hnd as [Hnotin Hnd].
    destruct (String.eqb_spec k k0) as [->|Hne].
    + split.
      * intros [= ->]. now left.
      * intros [[= ->]|Hin]; [reflexivity|]. exfalso. apply Hnotin.
        apply list_elem_of_In. apply (in_map fst) in Hin. exact Hin.
    + rewrite (IH Hnd). split; [tauto|]. intros [[= E _]|Hin]; [congruence|exact Hin].
Qed.

(** Looking a name up does not depend on the order of the properties. *)
Lemma lookup_prop_perm (k : string) (l l' : Props) :
  Permutation l l' -> NoDup (List.map fst l) -> lookup_prop k l = lookup_prop k l'.
Proof.
  intros P Hnd.
  assert (Hnd' : NoDup (List.map fst l')).
  { assert (PM : Permutation (List.map fst l) (List.map fst l'))
      by now apply Permutation_map.
    now rewrite <- PM. }
  destruct (lookup_prop k l) as [v|] eqn:E.
  - symmetry. apply (lookup_prop_Some k v l' Hnd').
    apply (Permutation_in _ P). now apply (lookup_prop_Some k v l Hnd).
  - symmetry. apply lookup_prop_None. apply lookup_prop_None in E.
    intros Hin. apply E. eapply Permutation_in; [|exact Hin].
    apply Permutation_map. now symmetry.
Qed.

Lemma enumerate_NoDup (ps : Props) :
  NoDup (List.map fst ps) -> NoDup (List.map fst (enumerate ps)).
Proof.
  intros H.
  assert (PM : Permutation (List.map fst (enumerate ps)) (List.map fst ps))
    by (apply Permutation_map, enumerate_perm).
  now rewrite PM.
Qed.

Lemma lookup_enumerate (k : string) (ps : Props) :
  NoDup (List.map fst ps) -> lookup_prop k (enumerate ps) = lookup_prop k ps.
Proof.
  intros H. apply lookup_prop_perm; [apply enumerate_perm|now apply enumerate_NoDup].
Qed.

End ObjectFacts.

(** ** The request of one attempt: URL, headers and body *)

Module RequestFacts.
Import Js Http.

Lemma append_query_params (q : Props) :
  forall u, Url.searchParams (append_query q u) = Url.searchParams u ++ stringified q.
Proof.
  unfold append_query, stringified. generalize (entries (JObj q)) as l.
  induction l as [|[k v] l IH]; intros u; simpl.
  - now rewrite app_nil_r.
  - rewrite IH. simpl. now rewrite <- app_assoc.
Qed.

Lemma append_query_base (q : Props) :
  forall u, Url.href_base (append_query q u) = Url.href_base u.
Proof.
  unfold append_query. generalize (entries (JObj q)) as l.
  induction l as [|[k v] l IH]; intros u; simpl; [reflexivity|].
  now rewrite IH.
Qed.

Lemma append_query_new_URL (s : string) (q : Props) :
  append_query q (Url.new_URL s) = Url.mkURL s (stringified q).
Proof.
  pose proof (append_query_params q (Url.new_URL s)) as P.
  pose proof (append_query_base q (Url.new_URL s)) as B.
  destruct (append_query q (Url.new_URL s)) as [b ps]. simpl in *. now subst.
Qed.

(** The URL of an attempt is the same in both modes. *)
Lemma build_request_url (method uri : string) (options : RequestOptions) (baseUri : string) :
  req_url (build_request method uri options baseUri)
  = Url.toString (Url.mkURL (String.append baseUri uri) (stringified (query options))).
Proof.
  unfold build_request. destruct (JsString.includes "json" method); simpl;
    now rewrite append_query_new_URL.
Qed.

(** [String] of an array of strings is the strings joined by commas. *)
Lemma ToString_array_of_strings (ss : list string) :
  ToString (JArr (List.map JStr ss)) = JsString.join "," ss.
Proof.
  simpl. f_equal. induction ss as [|s ss IH]; simpl; [reflexivity|]. now rewrite IH.
Qed.

(** C7, as the code has it.  Query serialization in form mode: the URL of
    the request is the base URL followed by one search parameter per key of
    the query mapping, each value in its string form and names and values
    URL-encoded, in the order of [Object.entries]: the keys that are array
    indices first, in ascending numeric order, then the other keys in the
    order of their insertion; so a query without array indices is sent in
    insertion order.  The request has no body.  The query [{key:k, token:t,
    name:Card Title}] gives [key=k&token=t&name=Card+Title].  An array is
    the comma-joined string of its elements, an object the fixed text
    [[object Object]], and [null] the text [null]. *)
Theorem form_query_serialization
    (method uri : string) (options : RequestOptions) (baseUri : string) :
  JsString.includes "json" method = false ->
  (req_url (build_request method uri options baseUri)
   = Url.toString
       (Url.mkURL (String.append baseUri uri)
          (List.map (fun kv => (fst kv, ToString (snd kv))) (enumerate (query options))))
   /\ req_body (build_request method uri options baseUri) = None)
  /\ (Permutation (enumerate (query options)) (query options)
      /\ (exists indices others,
            enumerate (query options) = indices ++ others
            /\ List.forallb is_index indices = true
            /\ StronglySorted (fun a b => (index_of a <= index_of b)%N) indices
            /\ others = List.filter (fun kv => negb (is_index kv)) (query options))
      /\ (List.forallb (fun kv => negb (is_index kv)) (query options) = true ->
          enumerate (query options) = query options))
  /\ req_url (build_request "post" "/1/cards" (Sample.form Sample.card_query) default_baseUri)
     = "https://api.trello.com/1/cards?key=k&token=t&name=Card+Title"
  /\ (forall ss, ToString (JArr (List.map JStr ss)) = JsString.join "," ss)
  /\ ToString (JArr [JNum 1; JStr "a b"; JArr [JNum 2; JNum 3]]) = "1,a b,2,3"
  /\ (forall ps, ToString (JObj ps) = "[object Object]")
  /\ ToString JNull = "null".
Proof.
  intros Hm. split; [split|split; [split; [|split]|]].
  - apply build_request_url.
  - unfold build_request. now rewrite Hm.
  - apply ObjectFacts.enumerate_perm.
  - exists (sort_by_index (List.filter is_index (query options))),
           (List.filter (fun kv => negb (is_index kv)) (query options)).
    split; [reflexivity|]. split; [|split; [apply ObjectFacts.sort_by_index_sorted|reflexivity]].
    apply List.forallb_forall. intros x Hx.
    apply (Permutation_in _ (ObjectFacts.sort_by_index_perm _)) in Hx.
    now apply List.filter_In in Hx.
  - apply ObjectFacts.enumerate_no_index.
  - repeat split. apply ToString_array_of_strings.
Qed.

Lemma form_query_serialization_witness :
  (req_url (build_request "post" "/1/cards" (Sample.form Sample.card_query) default_baseUri)
   = Url.toString
       (Url.mkURL (String.append default_baseUri "/1/cards")
          (List.map (fun kv => (fst kv, ToString (snd kv)))
             (enumerate (query (Sample.form Sample.card_query)))))
   /\ req_body (build_request "post" "/1/cards" (Sample.form Sample.card_query) default_baseUri)
      = None)
  /\ (Permutation (enumerate (query (Sample.form Sample.card_query)))
        (query (Sample.form Sample.card_query))
      /\ (exists indices others,
            enumerate (query (Sample.form Sample.card_query)) = indices ++ others
            /\ List.forallb is_index indices = true
            /\ StronglySorted (fun a b => (index_of a <= index_of b)%N) indices
            /\ others = List.filter (fun kv => negb (is_index kv))
                          (query (Sample.form Sample.card_query)))
      /\ (List.forallb (fun kv => negb (is_index kv)) (query (Sample.form Sample.card_query))
          = true ->
          enumerate (query (Sample.form Sample.card_query))
          = query (Sample.form Sample.card_query)))
  /\ req_url (build_request "post" "/1/cards" (Sample.form Sample.card_query) default_baseUri)
     = "https://api.trello.com/1/cards?key=k&token=t&name=Card+Title"
  /\ (forall ss, ToString (JArr (List.map JStr ss)) = JsString.join "," ss)
  /\ ToString (JArr [JNum 1; JStr "a b"; JArr [JNum 2; JNum 3]]) = "1,a b,2,3"
  /\ (forall ps, ToString (JObj ps) = "[object Object]")
  /\ ToString JNull = "null".
Proof.
  apply (form_query_serialization "post" "/1/cards" (Sample.form Sample.card_query)
           default_baseUri).
  reflexivity.
Defined.

(** C7, as the claim has it, fails on a query with a key that is an array
    index: with the properties created in the order [key], [token], [name],
    [7], the request carries [7] first, not last. *)
Lemma form_query_index_key_first :
  JsString.includes "json" "post" = false
  /\ req_url (build_request "post" "/1/cards" (Sample.form Sample.indexed_query)
                default_baseUri)
     = "https://api.trello.com/1/cards?7=x&key=k&token=t&name=Card+Title"
  /\ Url.toString
       (Url.mkURL (String.append default_baseUri "/1/cards")
          (List.map (fun kv => (fst kv, ToString (snd kv))) Sample.indexed_query))
     = "https://api.trello.com/1/cards?key=k&token=t&name=Card+Title&7=x"
  /\ req_url (build_request "post" "/1/cards" (Sample.form Sample.indexed_query)
                default_baseUri)
     <> Url.toString
          (Url.mkURL (String.append default_baseUri "/1/cards")
             (List.map (fun kv => (fst kv, ToString (snd kv))) Sample.indexed_query)).
Proof. repeat split. discriminate. Qed.

(** C9, as the code has it.  In JSON mode (the method contains [json]) with
    truthy [data], the body of the request is [JSON.stringify(data)], its
    headers are the headers of the payload, so [Content-Type:
    application/json] when the payload carries it, and every key of [query]
    is still a search parameter of the URL; with [data] that is absent or
    falsy the request in JSON mode has no body; a request in form mode has
    no body and no headers. *)
Theorem json_mode_request
    (method formMethod uri : string) (options : RequestOptions) (baseUri : string)
    (falsy : JsVal) :
  JsString.includes "json" method = true ->
  truthy (data options) = true ->
  truthy falsy = false ->
  JsString.includes "json" formMethod = false ->
  (exists body,
     JSON.stringify (data options) = Some body
     /\ req_body (build_request method uri options baseUri) = Some body)
  /\ req_headers (build_request method uri options baseUri) = headers options
  /\ (headers options = Facade.json_headers ->
      get (req_headers (build_request method uri options baseUri)) "Content-Type"
      = Some (JStr "application/json"))
  /\ req_url (build_request method uri options baseUri)
     = Url.toString (Url.mkURL (String.append baseUri uri) (stringified (query options)))
  /\ req_body (build_request method uri
                 (mkOptions (headers options) falsy (query options)) baseUri) = None
  /\ req_body (build_request formMethod uri options baseUri) = None
  /\ req_headers (build_request formMethod uri options baseUri) = JUndefined.
Proof.
  intros Hj Ht Hfalsy Hf. repeat split.
  - unfold build_request. rewrite Hj. simpl. rewrite Ht.
    destruct (data options) eqn:E; try discriminate; eexists; split; reflexivity.
  - unfold build_request. now rewrite Hj.
  - intros Hh. unfold build_request. rewrite Hj. simpl. now rewrite Hh.
  - apply build_request_url.
  - unfold build_request. rewrite Hj. simpl. now rewrite Hfalsy.
  - unfold build_request. now rewrite Hf.
  - unfold build_request. now rewrite Hf.
Qed.

Lemma json_mode_request_witness :
  (exists body,
     JSON.stringify (data (Sample.json_options Sample.a1)) = Some body
     /\ req_body (build_request "postjson" "/test" (Sample.json_options Sample.a1)
                    default_baseUri) = Some body)
  /\ req_headers (build_request "postjson" "/test" (Sample.json_options Sample.a1)
                    default_baseUri) = headers (Sample.json_options Sample.a1)
  /\ (headers (Sample.json_options Sample.a1) = Facade.json_headers ->
      get (req_headers (build_request "postjson" "/test" (Sample.json_options Sample.a1)
                          default_baseUri)) "Content-Type"
      = Some (JStr "application/json"))
  /\ req_url (build_request "postjson" "/test" (Sample.json_options Sample.a1) default_baseUri)
     = Url.toString (Url.mkURL (String.append default_baseUri "/test")
                       (stringified (query (Sample.json_options Sample.a1))))
  /\ req_body (build_request "postjson" "/test"
                 (mkOptions (headers (Sample.json_options Sample.a1)) (JNum 0)
                    (query (Sample.json_options Sample.a1))) default_baseUri) = None
  /\ req_body (build_request "post" "/test" (Sample.json_options Sample.a1) default_baseUri)
     = None
  /\ req_headers (build_request "post" "/test" (Sample.json_options Sample.a1) default_baseUri)
     = JUndefined.
Proof.
  apply (json_mode_request "postjson" "post" "/test" (Sample.json_options Sample.a1)
           default_baseUri (JNum 0)); reflexivity.
Defined.

(** The request of the example of the specification: JSON mode with
    [data:{a:1}]. *)
Example json_mode_a1 :
  build_request "postjson" "/test" (Sample.json_options Sample.a1) default_baseUri
  = mkRequest "https://api.trello.com/test?key=k&token=t" "POST"
      (JObj [("Content-Type", JStr "application/json")]) (Some Sample.a1_json).
Proof. reflexivity. Qed.

(** C9, as the claim has it, fails on [data] that is present and falsy:
    in JSON mode with [data: 0] the request has no body, where
    [JSON.stringify(0)] is the text [0]. *)
Lemma json_mode_falsy_data_no_body :
  JsString.includes "json" "postjson" = true
  /\ data (Sample.json_options (JNum 0)) = JNum 0
  /\ JSON.stringify (data (Sample.json_options (JNum 0))) = Some "0"
  /\ req_body (build_request "postjson" "/test" (Sample.json_options (JNum 0)) default_baseUri)
     = None
  /\ req_body (build_request "postjson" "/test" (Sample.json_options (JNum 0)) default_baseUri)
     <> JSON.stringify (data (Sample.json_options (JNum 0))).
Proof. repeat split; discriminate. Qed.

End RequestFacts.

(** ** The backoff delay *)

Module BackoffFacts.
Import Js Http.

Lemma Qfloor_eq_iff (x : Q) (n : Z) :
  Qfloor x = n <-> (inject_Z n <= x /\ x < inject_Z (n + 1))%Q.
Proof.
  split.
  - intros <-. split; [apply Qfloor_le | apply Qlt_floor].
  - intros [Hl Hu].
    assert (L : n <= Qfloor x).
    { rewrite <- (Qfloor_Z n). now apply Qfloor_resp_le. }
    assert (U : Qfloor x < n + 1).
    { rewrite Zlt_Qlt. eapply Qle_lt_trans; [apply Qfloor_le | exact Hu]. }
    lia.
Qed.

Lemma backoff_delay_bounds (r : Q) :
  (0 <= r)%Q -> (r < 1)%Q ->
  MIN_REQUEST_DELAY <= backoff_delay r < MAX_REQUEST_DELAY.
Proof.
  intros H0 H1. unfold backoff_delay, MIN_REQUEST_DELAY, MAX_REQUEST_DELAY.
  change (7000 - 500) with 6500.
  assert (L : 0 <= Qfloor (r * inject_Z 6500)).
  { rewrite <- (Qfloor_Z 0). apply Qfloor_resp_le.
    apply Qmult_le_0_compat; [exact H0 | discriminate]. }
  assert (U : Qfloor (r * inject_Z 6500) < 6500).
  { rewrite Zlt_Qlt. eapply Qle_lt_trans; [apply Qfloor_le|].
    apply Qlt_le_trans with (1 * inject_Z 6500)%Q.
    - apply Qmult_lt_compat_r; [reflexivity | exact H1].
    - rewrite Qmult_1_l. apply Qle_refl. }
  lia.
Qed.

Lemma Qdiv_le_iff (a b c : Q) : (0 < b)%Q -> (a / b <= c <-> a <= c * b)%Q.
Proof.
  intros Hb.
  assert (E : (a / b * b == a)%Q).
  { field. intros Z0. rewrite Z0 in Hb. discriminate. }
  rewrite <- (Qmult_le_r (a / b) c b Hb). now rewrite E.
Qed.

Lemma Qlt_div_iff (a b c : Q) : (0 < b)%Q -> (c < a / b <-> c * b < a)%Q.
Proof.
  intros Hb.
  assert (E : (a / b * b == a)%Q).
  { field. intros Z0. rewrite Z0 in Hb. discriminate. }
  rewrite <- (Qmult_lt_r c (a / b) b Hb). now rewrite E.
Qed.

(** On exact rationals, the draws that give the delay [d] are those of
    one interval of width [1/6500]. *)
Lemma backoff_delay_preimage (r : Q) (d : Z) :
  backoff_delay r = d
  <-> (inject_Z (d - 500) / inject_Z 6500 <= r
       /\ r < inject_Z (d - 499) / inject_Z 6500)%Q.
Proof.
  unfold backoff_delay, MIN_REQUEST_DELAY, MAX_REQUEST_DELAY.
  change (7000 - 500) with 6500.
  rewrite (Qdiv_le_iff _ (inject_Z 6500) _ eq_refl).
  rewrite (Qlt_div_iff _ (inject_Z 6500) _ eq_refl).
  replace (d - 499) with (d - 500 + 1) by lia.
  rewrite <- Qfloor_eq_iff. lia.
Qed.





End BackoffFacts.


(** ** Properties of the facade's generic entry point *)

Module FacadeFacts.
Import Js Http.

(** *** Property lists *)

Lemma lookup_set_prop (k k' : string) (v : JsVal) (ps : Props) :
  lookup_prop k (set_prop k' v ps)
  = if String.eqb k k' then Some v else lookup_prop k ps.
Proof.
  induction ps as [|[k0 v0] ps IH]; simpl.
  - reflexivity.
  - destruct (String.eqb_spec k' k0) as [->|Hne]; simpl.
    + destruct (String.eqb_spec k k0); reflexivity.
    + rewrite IH. destruct (String.eqb_spec k k0) as [->|]; [|reflexivity].
      destruct (String.eqb_spec k0 k') as [E|]; [congruence|reflexivity].
Qed.

Lemma lookup_prop_absent (k : string) (ps : Props) :
  k ∉ List.map fst ps -> lookup_prop k ps = None.
Proof.
  induction ps as [|[k0 v0] ps IH]; simpl; intros H; [reflexivity|].
  apply not_elem_of_cons in H as [Hne Hnotin].
  destruct (String.eqb_spec k k0) as [->|]; [contradiction|]. now apply IH.
Qed.

Lemma lookup_prop_In (k : string) (v : JsVal) (ps : Props) :
  lookup_prop k ps = Some v -> In (k, v) ps.
Proof.
  induction ps as [|[k0 v0] ps IH]; simpl; [discriminate|].
  destruct (String.eqb_spec k k0) as [->|]; intros H.
  - left. congruence.
  - right. now apply IH.
Qed.

Lemma lookup_delete_prop (k : string) (ps : Props) :
  lookup_prop k (delete_prop k ps) = None.
Proof.
  induction ps as [|[k0 v0] ps IH]; simpl; [reflexivity|].
  destruct (String.eqb_spec k k0) as [->|Hne]; [exact IH|].
  simpl. destruct (String.eqb_spec k k0); [contradiction|exact IH].
Qed.

Lemma lookup_delete_prop_ne (k k' : string) (ps : Props) :
  k <> k' -> lookup_prop k (delete_prop k' ps) = lookup_prop k ps.
Proof.
  intros Hne. induction ps as [|[k0 v0] ps IH]; simpl; [reflexivity|].
  destruct (String.eqb_spec k' k0) as [->|]; simpl.
  - destruct (String.eqb_spec k k0); [contradiction|exact IH].
  - now rewrite IH.
Qed.

Lemma lookup_fold_set_prop (k : string) (l : Props) :
  NoDup (List.map fst l) ->
  forall acc,
    lookup_prop k (List.fold_left (fun acc kv => set_prop (fst kv) (snd kv) acc) l acc)
    = match lookup_prop k l with
      | Some v => Some v
      | None => lookup_prop k acc
      end.
Proof.
  induction l as [|[k0 v0] l IH]; simpl; intros Hnd acc; [reflexivity|].
  inversion Hnd as [|? ? Hnotin Hnd']; subst.
  rewrite (IH Hnd'), lookup_set_prop.
  destruct (String.eqb_spec k k0) as [->|]; [|reflexivity].
  now rewrite (lookup_prop_absent k0 l Hnotin).
Qed.

(** A copy by spread has the properties of its source. *)
Lemma lookup_spread_object (k : string) (o : Props) :
  NoDup (List.map fst o) ->
  forall acc,
    lookup_prop k (spread acc (JObj o))
    = match lookup_prop k o with
      | Some v => Some v
      | None => lookup_prop k acc
      end.
Proof.
  intros Hnd acc. unfold spread. simpl entries.
  rewrite (lookup_fold_set_prop k (enumerate o) (ObjectFacts.enumerate_NoDup o Hnd)).
  now rewrite (ObjectFacts.lookup_enumerate k o Hnd).
Qed.

(** The merged query of the facade keeps every property of the caller's
    options except [key] and [token], which are the client's. *)
Lemma lookup_merged_query (this : Facade.Trello) (k : string) (o : Props) :
  NoDup (List.map fst o) ->
  k <> "key" -> k <> "token" ->
  lookup_prop k (spread (spread [] (JObj o)) (JObj (Facade.createQuery this)))
  = lookup_prop k o.
Proof.
  intros Hnd Hk Ht. unfold spread at 1. simpl.
  rewrite !lookup_set_prop.
  destruct (String.eqb_spec k "token"); [contradiction|].
  destruct (String.eqb_spec k "key"); [contradiction|].
  rewrite (lookup_spread_object k o Hnd). simpl. now destruct (lookup_prop k o).
Qed.

(** *** The invocations of a call *)

Lemma makeRequest_calls (method uri : string) (options : RequestOptions) (baseUri : string)
    (fuel : nat) :
  forall w, exists k,
    calls (fst (makeRequest (S fuel) method uri options baseUri w))
    = calls w ++ build_request method uri options baseUri
                 :: repeat (build_request method uri options baseUri) k.
Proof.
  induction fuel as [|fuel IH]; intros w.
  - exists 0%nat. simpl.
    destruct (transport w _ _) as [r|]; [|reflexivity].
    destruct (status r =? 429)%Z; [reflexivity|].
    destruct (ok r); simpl; [destruct (json r)|]; reflexivity.
  - remember (S fuel) as n. simpl.
    destruct (transport w _ _) as [r|]; [|exists 0%nat; reflexivity].
    destruct (status r =? 429)%Z.
    + subst n.
      destruct (IH (setTimeout (backoff_delay
                      (Math_random (snd (fetch (build_request method uri options baseUri) w))))
                      (snd (fetch (build_request method uri options baseUri) w)))) as [k Hk].
      exists (S k). simpl in Hk |- *. rewrite Hk. now rewrite <- app_assoc.
    + exists 0%nat. destruct (ok r); simpl; [destruct (json r)|]; reflexivity.
Qed.

(** *** Validation *)

(** A request method that is not a string is refused before anything else
    happens. *)
Lemma rejects_non_string_method (fuel : nat) (this : Facade.Trello) (m : JsVal)
    (path : string) (options : Facade.Param) (s : gmap nat JsVal) (w : World) :
  typeof m <> "string" ->
  Facade.makeRequest fuel this m path options s w
  = (s, w, Some (Rejected (TypeError "requestMethod should be a string"))).
Proof.
  intros H. unfold Facade.makeRequest.
  destruct (String.eqb_spec (typeof m) "string"); [contradiction|reflexivity].
Qed.

(** Options that are given and are not an object are refused before the
    transport is reached. *)
Lemma rejects_non_object_options (fuel : nat) (this : Facade.Trello) (m : string)
    (path : string) (v : JsVal) (s : gmap nat JsVal) (w : World) :
  typeof v <> "object" -> v <> JUndefined ->
  Facade.makeRequest fuel this (JStr m) path (Facade.ByValue v) s w
  = (s, w, Some (Rejected (TypeError "options should be an object"))).
Proof.
  intros H Hu. unfold Facade.makeRequest. simpl.
  destruct v; try contradiction; simpl in *; try reflexivity; contradiction.
Qed.

Example rejects_123 :
  Facade.makeRequest 1 Sample.client (JNum 123) "/1/somePath" (Facade.ByValue JUndefined) ∅
    (Sample.world (Sample.throttled 0 (Sample.success Sample.payload)))
  = (∅, Sample.world (Sample.throttled 0 (Sample.success Sample.payload)),
     Some (Rejected (TypeError "requestMethod should be a string"))).
Proof. reflexivity. Qed.

Example rejects_not_an_object :
  Facade.makeRequest 1 Sample.client (JStr "GET") "/1/somePath"
    (Facade.ByValue (JStr "not-an-object")) ∅
    (Sample.world (Sample.throttled 0 (Sample.success Sample.payload)))
  = (∅, Sample.world (Sample.throttled 0 (Sample.success Sample.payload)),
     Some (Rejected (TypeError "options should be an object"))).
Proof. reflexivity. Qed.

(** C3, where the code departs from it.  The request method [patch] is a
    string outside the six supported names, and the call does not reject
    it: the transport is invoked, with the wire method [PATCH], and the call
    ends as the transport's answer decides; against a transport that answers
    200 it resolves. *)
Theorem unsupported_method_reaches_transport
    (fuel : nat) (this : Facade.Trello) (path : string) (s : gmap nat JsVal) (w : World) :
  (exists k,
     calls (snd (fst (Facade.makeRequest (S fuel) this (JStr "patch") path
                        (Facade.ByValue JUndefined) s w)))
     = calls w
       ++ build_request "patch" path (Sample.form (Facade.createQuery this)) (Facade.uri this)
          :: repeat (build_request "patch" path (Sample.form (Facade.createQuery this))
                       (Facade.uri this)) k)
  /\ req_method (build_request "patch" path (Sample.form (Facade.createQuery this))
                   (Facade.uri this)) = "PATCH"
  /\ Facade.makeRequest 1 Sample.client (JStr "patch") "/1/somePath"
       (Facade.ByValue JUndefined) ∅
       (Sample.world (Sample.throttled 0 (Sample.success Sample.payload)))
     = (∅,
        mkWorld (Sample.throttled 0 (Sample.success Sample.payload)) (fun _ => 0%Q)
          [mkRequest "https://api.trello.com/1/somePath?key=k&token=t" "PATCH" JUndefined None]
          [],
        Some (Resolved Sample.payload)).
Proof.
  split; [|split; reflexivity].
  unfold Facade.makeRequest. cbn [negb typeof String.eqb Facade.deref ToString orb].
  change (String.eqb (typeof (JStr "patch")) "string") with true.
  change (String.eqb (typeof (JObj [])) "object") with true.
  change (String.eqb "patch" "POST_JSON" || String.eqb "patch" "PUT_JSON") with false.
  cbn [negb].
  change (spread (spread [] (JObj [])) (JObj (Facade.createQuery this)))
    with (Facade.createQuery this).
  destruct (makeRequest_calls "patch" path (Sample.form (Facade.createQuery this))
              (Facade.uri this) fuel w) as [k Hk].
  exists k. unfold Sample.form in *.
  destruct (makeRequest (S fuel) "patch" path _ (Facade.uri this) w) as [w' r].
  exact Hk.
Qed.

(** *** The wire method *)

(** The suffix the core strips is the lower-case [json], at the very end. *)
Example wire_method_lowercase :
  List.map (fun m => req_method (build_request m "/t" (Sample.form Sample.auth) default_baseUri))
    ["get"; "post"; "put"; "delete"; "postjson"; "putjson"; "GET"; "POST"; "PUT"; "DELETE"]
  = ["GET"; "POST"; "PUT"; "DELETE"; "POST"; "PUT"; "GET"; "POST"; "PUT"; "DELETE"].
Proof. reflexivity. Qed.

(** C4, where the code departs from it.  For the accepted names
    [POST_JSON] and [PUT_JSON] the wire method is the name itself, suffix
    included, whatever the path and the payload: the core strips and detects
    the lower-case suffix [json] only.  Through the facade the request for
    [POST_JSON] with [data:{a:1}] goes out with that method, in form mode,
    without body or headers. *)
Theorem json_suffix_reaches_wire
    (uri : string) (options : RequestOptions) (baseUri : string) :
  req_method (build_request "POST_JSON" uri options baseUri) = "POST_JSON"
  /\ req_method (build_request "PUT_JSON" uri options baseUri) = "PUT_JSON"
  /\ ~ In (req_method (build_request "POST_JSON" uri options baseUri))
         ["GET"; "POST"; "PUT"; "DELETE"]
  /\ req_body (build_request "POST_JSON" uri options baseUri) = None
  /\ calls (snd (fst (Facade.makeRequest 1 Sample.client (JStr "POST_JSON") "/1/customFields"
                        (Facade.ByValue (JObj [("data", Sample.a1)])) ∅
                        (Sample.world (Sample.throttled 0 (Sample.success Sample.payload))))))
     = [mkRequest
          "https://api.trello.com/1/customFields?data=%5Bobject+Object%5D&key=k&token=t"
          "POST_JSON" JUndefined None].
Proof.
  repeat split.
  simpl. intros [H|[H|[H|[H|[]]]]]; discriminate.
Qed.

Example wire_method_uppercase_suffix :
  List.map (fun m => req_method (build_request m "/t" (Sample.form Sample.auth) default_baseUri))
    ["POSTJSON"; "PUTJSON"; "POST_JSON"; "PUT_JSON"; "post_json"]
  = ["POSTJSON"; "PUTJSON"; "POST_JSON"; "PUT_JSON"; "POST_"].
Proof. reflexivity. Qed.

(** *** The caller's options object *)

Lemma alter_lookup_insert (f : JsVal -> JsVal) (l : nat) (x : JsVal) (s : gmap nat JsVal) :
  s !! l = Some x -> alter f l s = <[l := f x]> s.
Proof.
  intros H. apply map_eq. intros i. destruct (decide (l = i)) as [->|Hne].
  - now rewrite lookup_alter_eq, lookup_insert_eq, H.
  - now rewrite lookup_alter_ne, lookup_insert_ne.
Qed.

(** The store after a call with a method other than the two JSON names is
    the store before it. *)
Lemma other_methods_keep_store (fuel : nat) (this : Facade.Trello) (m : JsVal)
    (path : string) (options : Facade.Param) (s : gmap nat JsVal) (w : World) :
  m <> JStr "POST_JSON" -> m <> JStr "PUT_JSON" ->
  fst (fst (Facade.makeRequest fuel this m path options s w)) = s.
Proof.
  intros H1 H2. destruct m as [| | | |m| |]; try reflexivity.
  unfold Facade.makeRequest. cbn [typeof ToString negb].
  change (String.eqb "string" "string") with true. cbn [negb].
  destruct (negb (String.eqb (typeof _) "object")); [reflexivity|].
  destruct (String.eqb_spec m "POST_JSON") as [E|_]; [congruence|].
  destruct (String.eqb_spec m "PUT_JSON") as [E|_]; [congruence|].
  simpl. now destruct (makeRequest fuel _ path _ (Facade.uri this) w).
Qed.

(** C10. A call of the generic entry point with the method [POST_JSON] or
    [PUT_JSON] and the caller's options object [o] leaves that object
    without its [data] property, its other properties and every other
    object as they were; the request it hands to the transport was built
    from the query merged before the deletion, which has the [data] of [o],
    so [data] is one of the search parameters of the URL, in its string
    form.  A call with any other method leaves the caller's object as it
    was. *)
Theorem json_call_deletes_data
    (fuel : nat) (this : Facade.Trello) (method other path : string)
    (l : nat) (o : Props) (s : gmap nat JsVal) (w : World) :
  s !! l = Some (JObj o) ->
  NoDup (List.map fst o) ->
  method = "POST_JSON" \/ method = "PUT_JSON" ->
  other <> "POST_JSON" -> other <> "PUT_JSON" ->
  fst (fst (Facade.makeRequest fuel this (JStr method) path (Facade.ByRef l) s w))
    = <[l := JObj (delete_prop "data" o)]> s
  /\ lookup_prop "data" (delete_prop "data" o) = None
  /\ (forall k, k <> "data" -> lookup_prop k (delete_prop "data" o) = lookup_prop k o)
  /\ (exists req n,
        calls (snd (fst (Facade.makeRequest (S fuel) this (JStr method) path
                           (Facade.ByRef l) s w)))
          = calls w ++ req :: repeat req n
        /\ forall v, lookup_prop "data" o = Some v ->
             lookup_prop "data"
               (spread (spread [] (JObj o)) (JObj (Facade.createQuery this))) = Some v
             /\ exists params,
                  req_url req
                  = Url.toString (Url.mkURL (String.append (Facade.uri this) path) params)
                  /\ In ("data", ToString v) params)
  /\ fst (fst (Facade.makeRequest fuel this (JStr other) path (Facade.ByRef l) s w)) = s.
Proof.
  intros Hs Hnd Hm Ho1 Ho2.
  assert (Hjson : String.eqb method "POST_JSON" || String.eqb method "PUT_JSON" = true).
  { destruct Hm; subst; reflexivity. }
  assert (Hq : forall v, lookup_prop "data" o = Some v ->
             lookup_prop "data"
               (spread (spread [] (JObj o)) (JObj (Facade.createQuery this))) = Some v).
  { intros v Hv. rewrite lookup_merged_query; [exact Hv|exact Hnd|discriminate|discriminate]. }
  split; [|split; [|split; [|split]]].
  - unfold Facade.makeRequest. cbv beta iota zeta. unfold Facade.deref.
    rewrite Hs. simpl default.
    cbn [typeof ToString negb]. change (String.eqb "string" "string") with true.
    change (String.eqb "object" "object") with true. cbn [negb].
    rewrite Hjson. cbn [get].
    destruct (makeRequest fuel method path _ (Facade.uri this) w) as [w' r].
    simpl. now rewrite (alter_lookup_insert _ l (JObj o) s Hs).
  - apply lookup_delete_prop.
  - intros k Hk. now apply lookup_delete_prop_ne.
  - unfold Facade.makeRequest. cbv beta iota zeta. unfold Facade.deref.
    rewrite Hs. simpl default.
    cbn [typeof ToString negb]. change (String.eqb "string" "string") with true.
    change (String.eqb "object" "object") with true. cbn [negb].
    rewrite Hjson. cbn [get].
    match goal with
    | |- context [makeRequest (S fuel) method path ?opts (Facade.uri this) w] =>
        destruct (makeRequest_calls method path opts (Facade.uri this) fuel w) as [n Hn];
        exists (build_request method path opts (Facade.uri this)), n;
        destruct (makeRequest (S fuel) method path opts (Facade.uri this) w) as [w' r]
    end.
    split; [exact Hn|].
    intros v Hv. split; [now apply Hq|].
    eexists. split; [apply RequestFacts.build_request_url|].
    simpl query. unfold stringified.
    apply (in_map (fun kv => (fst kv, ToString (snd kv))) _ ("data", v)).
    simpl entries. apply ObjectFacts.enumerate_In.
    apply lookup_prop_In. now apply Hq.
  - apply other_methods_keep_store; congruence.
Qed.

Lemma json_call_deletes_data_witness :
  fst (fst (Facade.makeRequest 1 Sample.client (JStr "POST_JSON") "/1/customFields"
              (Facade.ByRef 0) Sample.caller_store
              (Sample.world (Sample.throttled 0 (Sample.success Sample.payload)))))
    = <[0%nat := JObj (delete_prop "data" Sample.custom_field)]> Sample.caller_store
  /\ lookup_prop "data" (delete_prop "data" Sample.custom_field) = None
  /\ (forall k, k <> "data" ->
        lookup_prop k (delete_prop "data" Sample.custom_field)
        = lookup_prop k Sample.custom_field)
  /\ (exists req n,
        calls (snd (fst (Facade.makeRequest 2 Sample.client (JStr "POST_JSON")
                           "/1/customFields" (Facade.ByRef 0) Sample.caller_store
                           (Sample.world (Sample.throttled 0 (Sample.success Sample.payload))))))
          = calls (Sample.world (Sample.throttled 0 (Sample.success Sample.payload)))
            ++ req :: repeat req n
        /\ forall v, lookup_prop "data" Sample.custom_field = Some v ->
             lookup_prop "data"
               (spread (spread [] (JObj Sample.custom_field))
                  (JObj (Facade.createQuery Sample.client))) = Some v
             /\ exists params,
                  req_url req
                  = Url.toString
                      (Url.mkURL (String.append (Facade.uri Sample.client) "/1/customFields")
                         params)
                  /\ In ("data", ToString v) params)
  /\ fst (fst (Facade.makeRequest 1 Sample.client (JStr "GET") "/1/customFields"
                 (Facade.ByRef 0) Sample.caller_store
                 (Sample.world (Sample.throttled 0 (Sample.success Sample.payload)))))
     = Sample.caller_store.
Proof.
  apply (json_call_deletes_data 1 Sample.client "POST_JSON" "GET" "/1/customFields" 0%nat
           Sample.custom_field Sample.caller_store
           (Sample.world (Sample.throttled 0 (Sample.success Sample.payload)))).
  - reflexivity.
  - apply (bool_decide_unpack _). vm_compute. exact I.
  - left. reflexivity.
  - discriminate.
  - discriminate.
Defined.

(** A call with [POST_JSON] on the sample store, evaluated: the caller's
    object has lost [data], and the single request carries it in the query
    string. *)
Example post_json_call_on_sample_store :
  Facade.makeRequest 1 Sample.client (JStr "POST_JSON") "/1/customFields"
    (Facade.ByRef 0) Sample.caller_store
    (Sample.world (Sample.throttled 0 (Sample.success Sample.payload)))
  = ({[ 0%nat := JObj [("name", JStr "Priority")] ]},
     mkWorld (Sample.throttled 0 (Sample.success Sample.payload)) (fun _ => 0%Q)
       [mkRequest
          "https://api.trello.com/1/customFields?data=%5Bobject+Object%5D&name=Priority&key=k&token=t"
          "POST_JSON" JUndefined None]
       [],
     Some (Resolved Sample.payload)).
Proof. vm_compute. reflexivity. Qed.

End FacadeFacts.

(** ** Further properties of the transport core *)

Module CoreExtras.
Import Js Http.

Section Call.
Variables (method uri : string) (options : RequestOptions) (baseUri : string).

Lemma retried_random k req : forall w, random (retried k req w) = random w.
Proof. induction k as [|k IH]; intros w; simpl; [reflexivity|]. now rewrite IH. Qed.

Lemma retried_S k req :
  forall w, retried (S k) req w = retried k req (retried 1 req w).
Proof. reflexivity. Qed.

(** A call that ends has seen [k] answers 429 and then an answer that
    settles it; its world is the one after [k] retries and one more
    invocation. *)
Lemma makeRequest_inversion fuel :
  forall w w' out,
    makeRequest fuel method uri options baseUri w = (w', Some out) ->
    exists k,
      (k < fuel)%nat
      /\ (forall i, (i < k)%nat ->
            exists r, transport w (length (calls w) + i)
                        (build_request method uri options baseUri) = FetchResolved r
                      /\ status r = 429)
      /\ Attempt.settle (transport w (length (calls w) + k)
                           (build_request method uri options baseUri)) = Some out
      /\ w' = snd (fetch (build_request method uri options baseUri)
                     (retried k (build_request method uri options baseUri) w)).
Proof.
  induction fuel as [|fuel IH]; intros w w' out H; [discriminate|].
  simpl in H.
  destruct (transport w (length (calls w)) (build_request method uri options baseUri))
    as [r|reason] eqn:Ht.
  - destruct (Z.eqb_spec (status r) 429) as [Hs|Hs].
    + apply IH in H. destruct H as (k & Hk & Hpre & Hset & Hw).
      exists (S k). split; [lia|]. split; [|split].
      * intros [|i] Hi.
        -- exists r. rewrite Nat.add_0_r. now split.
        -- destruct (Hpre i ltac:(lia)) as (r' & Hr' & Hs'). exists r'. split; [|exact Hs'].
           simpl in Hr'. rewrite length_app in Hr'. simpl in Hr'.
           replace (length (calls w) + S i)%nat with (length (calls w) + 1 + i)%nat by lia.
           exact Hr'.
      * simpl in Hset. rewrite length_app in Hset. simpl in Hset.
        replace (length (calls w) + S k)%nat with (length (calls w) + 1 + k)%nat by lia.
        exact Hset.
      * exact Hw.
    + exists 0%nat. split; [lia|]. split; [intros i Hi; lia|]. rewrite Nat.add_0_r, Ht.
      simpl. destruct (Z.eqb_spec (status r) 429); [contradiction|].
      destruct (ok r); simpl in H |- *; [destruct (json r)|]; inversion H; subst; now split.
  - exists 0%nat. split; [lia|]. split; [intros i Hi; lia|]. rewrite Nat.add_0_r, Ht.
    inversion H; subst. now split.
Qed.

(** Conversely, [k] answers 429 followed by an answer that settles the
    call end it, given fuel for [k + 1] attempts. *)
Lemma makeRequest_settles k fuel w out :
  (forall i, (i < k)%nat ->
     exists r, transport w (length (calls w) + i)
                 (build_request method uri options baseUri) = FetchResolved r
               /\ status r = 429) ->
  Attempt.settle (transport w (length (calls w) + k)
                    (build_request method uri options baseUri)) = Some out ->
  makeRequest (k + S fuel) method uri options baseUri w
  = (snd (fetch (build_request method uri options baseUri)
            (retried k (build_request method uri options baseUri) w)),
     Some out).
Proof.
  intros Hpre Hset.
  rewrite (HttpFacts.makeRequest_retried method uri options baseUri k (S fuel) w Hpre).
  simpl. rewrite HttpFacts.retried_transport, HttpFacts.retried_calls, length_app, repeat_length.
  destruct (transport w (length (calls w) + k) (build_request method uri options baseUri))
    as [r|reason]; simpl in Hset.
  - destruct (status r =? 429)%Z; [discriminate|].
    destruct (ok r); simpl; [destruct (json r)|]; now inversion Hset.
  - now inversion Hset.
Qed.

Lemma calls_after_final k w :
  calls (snd (fetch (build_request method uri options baseUri)
                (retried k (build_request method uri options baseUri) w)))
  = calls w ++ repeat (build_request method uri options baseUri) (S k).
Proof.
  simpl calls. rewrite HttpFacts.retried_calls, <- app_assoc. f_equal.
  symmetry. apply repeat_cons.
Qed.

(** X1. The trace of a call that ends: the call fetches and sleeps in
    turn and ends on a fetch, so one timer is set between two consecutive
    invocations and none after the last; every fetch carries the same
    request; and the invocations and timers recorded in the world are
    those events. *)
Theorem call_trace (fuel : nat) (w w' : World) (out : Outcome) :
  makeRequest fuel method uri options baseUri w = (w', Some out) ->
  exists ds,
    Attempt.makeRequest_events fuel method uri options baseUri w
      = Attempt.retries (build_request method uri options baseUri) ds
        ++ [Attempt.Fetched (build_request method uri options baseUri)]
    /\ calls w' = calls w
                  ++ repeat (build_request method uri options baseUri) (S (length ds))
    /\ timers w' = timers w ++ ds.
Proof.
  revert w. induction fuel as [|fuel IH]; intros w H; [discriminate|].
  simpl in H |- *.
  destruct (transport w (length (calls w)) (build_request method uri options baseUri))
    as [r|reason].
  - destruct (status r =? 429)%Z.
    + apply IH in H. destruct H as (ds & Hev & Hcalls & Htimers).
      exists (backoff_delay
                (Math_random (snd (fetch (build_request method uri options baseUri) w)))
              :: ds).
      rewrite Hev, Hcalls, Htimers. simpl. rewrite <- !app_assoc. repeat split.
    + exists []. simpl. rewrite app_nil_r.
      destruct (ok r); simpl in H; [destruct (json r)|]; inversion H; subst; repeat split.
  - exists []. simpl. rewrite app_nil_r. inversion H; subst. repeat split.
Qed.

(** X2. What an outcome says about the answer to the last invocation of
    the transport.  A resolved value is the JSON body of an answer that was
    [ok]; an error
    with a response carries an answer that was not [ok], with its text as
    message; in neither case is the status 429; a fetch failure is the
    transport's own rejection; a syntax error comes from an [ok] answer
    whose body does not parse.  Nothing is said of a type error, which is
    not the outcome of an answer. *)
Theorem outcome_soundness (fuel : nat) (w w' : World) (out : Outcome) :
  makeRequest fuel method uri options baseUri w = (w', Some out) ->
  exists k,
    calls w' = calls w ++ repeat (build_request method uri options baseUri) (S k)
    /\ match out with
       | Resolved v =>
           exists r, transport w (length (calls w) + k)
                       (build_request method uri options baseUri) = FetchResolved r
                     /\ ok r = true /\ status r <> 429 /\ json r = Some v
       | Rejected (ErrorWithResponse m r) =>
           transport w (length (calls w) + k)
             (build_request method uri options baseUri) = FetchResolved r
           /\ ok r = false /\ status r <> 429 /\ m = text r
       | Rejected (FetchFailure reason) =>
           transport w (length (calls w) + k)
             (build_request method uri options baseUri) = FetchRejected reason
       | Rejected JsonSyntaxError =>
           exists r, transport w (length (calls w) + k)
                       (build_request method uri options baseUri) = FetchResolved r
                     /\ ok r = true /\ status r <> 429 /\ json r = None
       | Rejected (TypeError _) => True
       end.
Proof.
  intros H. apply makeRequest_inversion in H. destruct H as (k & _ & _ & Hset & ->).
  exists k. split; [apply calls_after_final|].
  destruct (transport w (length (calls w) + k) (build_request method uri options baseUri))
    as [r|reason]; simpl in Hset.
  - destruct (Z.eqb_spec (status r) 429) as [|Hs]; [discriminate|].
    destruct (ok r) eqn:Hok; [destruct (json r) eqn:Hj|]; inversion Hset; subst.
    + exists r. now repeat split.
    + exists r. now repeat split.
    + now repeat split.
  - inversion Hset; subst. reflexivity.
Qed.

(** X3. A rejection of the transport itself is not retried: after [k]
    answers 429, a fetch that fails with [reason] ends the call with that
    failure, [k + 1] invocations having been made. *)
Theorem network_failure_propagates (k fuel : nat) (w : World) (reason : string) :
  (forall i, (i < k)%nat ->
     exists r, transport w (length (calls w) + i)
                 (build_request method uri options baseUri) = FetchResolved r
               /\ status r = 429) ->
  transport w (length (calls w) + k) (build_request method uri options baseUri)
    = FetchRejected reason ->
  exists w',
    makeRequest (k + S fuel) method uri options baseUri w
      = (w', Some (Rejected (FetchFailure reason)))
    /\ calls w' = calls w ++ repeat (build_request method uri options baseUri) (S k)
    /\ length (timers w') = (length (timers w) + k)%nat.
Proof.
  intros Hpre Hrej. eexists. split; [|split].
  - apply makeRequest_settles; [exact Hpre|]. now rewrite Hrej.
  - apply calls_after_final.
  - simpl. apply HttpFacts.retried_timers_length.
Qed.

(** X4. An [ok] answer whose body is not JSON is a failure of the call,
    not a success without value: the call rejects with the parser's error
    after that invocation, and sets no timer for it. *)
Theorem invalid_json_rejects (fuel : nat) (w : World) (r : Response) :
  transport w (length (calls w)) (build_request method uri options baseUri)
    = FetchResolved r ->
  ok r = true -> status r <> 429 -> json r = None ->
  exists w',
    makeRequest (S fuel) method uri options baseUri w = (w', Some (Rejected JsonSyntaxError))
    /\ calls w' = calls w ++ [build_request method uri options baseUri]
    /\ timers w' = timers w.
Proof.
  intros Ht Hok Hs Hj. eexists. split; [|split].
  - apply (makeRequest_settles 0 fuel w); [intros i Hi; lia|].
    rewrite Nat.add_0_r, Ht. simpl.
    destruct (Z.eqb_spec (status r) 429); [contradiction|]. now rewrite Hok, Hj.
  - reflexivity.
  - reflexivity.
Qed.

Lemma retried_timers k :
  forall w,
    (forall i, (0 <= random w i)%Q /\ (random w i < 1)%Q) ->
    exists ds,
      timers (retried k (build_request method uri options baseUri) w) = timers w ++ ds
      /\ length ds = k
      /\ Forall (fun d => 500 <= d < 7000) ds.
Proof.
  induction k as [|k IH]; intros w Hr.
  - exists []. simpl. rewrite app_nil_r. repeat split. constructor.
  - rewrite retried_S.
    destruct (IH (retried 1 (build_request method uri options baseUri) w) Hr)
      as (ds & Hds & Hlen & Hall).
    rewrite Hds.
    exists (backoff_delay
              (Math_random (snd (fetch (build_request method uri options baseUri) w))) :: ds).
    split; [simpl; now rewrite <- app_assoc|].
    split; [simpl; now rewrite Hlen|].
    constructor; [|exact Hall].
    apply BackoffFacts.backoff_delay_bounds; apply Hr.
Qed.

Lemma total_delay_bounds (ds : list Z) :
  Forall (fun d => 500 <= d < 7000) ds ->
  500 * Z.of_nat (length ds) <= Attempt.total_delay ds <= 6999 * Z.of_nat (length ds).
Proof.
  induction 1 as [|d ds Hd _ IH]; simpl; [lia|].
  unfold Attempt.total_delay in *. simpl. lia.
Qed.

(** X5. The time a call spends waiting: when the draws of [Math.random]
    are in the unit interval, a call that ends after [k + 1] invocations
    has set [k] timers whose delays add up to at least [500 k] and at most
    [6999 k] milliseconds. *)
Theorem total_backoff_bounds (fuel : nat) (w w' : World) (out : Outcome) :
  (forall i, (0 <= random w i)%Q /\ (random w i < 1)%Q) ->
  makeRequest fuel method uri options baseUri w = (w', Some out) ->
  exists k ds,
    calls w' = calls w ++ repeat (build_request method uri options baseUri) (S k)
    /\ timers w' = timers w ++ ds
    /\ length ds = k
    /\ 500 * Z.of_nat k <= Attempt.total_delay ds <= 6999 * Z.of_nat k.
Proof.
  intros Hr H. apply makeRequest_inversion in H. destruct H as (k & _ & _ & _ & ->).
  destruct (retried_timers k w Hr) as (ds & Hds & Hlen & Hall).
  exists k, ds. split; [apply calls_after_final|]. split; [exact Hds|]. split; [exact Hlen|].
  rewrite <- Hlen. now apply total_delay_bounds.
Qed.

End Call.

Lemma call_trace_witness :
  exists ds,
    Attempt.makeRequest_events 3 "get" "/test" (Sample.form Sample.auth) default_baseUri
      (Sample.world (Sample.throttled 2 (Sample.success Sample.payload)))
      = Attempt.retries
          (build_request "get" "/test" (Sample.form Sample.auth) default_baseUri) ds
        ++ [Attempt.Fetched
              (build_request "get" "/test" (Sample.form Sample.auth) default_baseUri)]
    /\ calls (fst (makeRequest 3 "get" "/test" (Sample.form Sample.auth) default_baseUri
                     (Sample.world (Sample.throttled 2 (Sample.success Sample.payload)))))
       = [] ++ repeat (build_request "get" "/test" (Sample.form Sample.auth) default_baseUri)
                 (S (length ds))
    /\ timers (fst (makeRequest 3 "get" "/test" (Sample.form Sample.auth) default_baseUri
                      (Sample.world (Sample.throttled 2 (Sample.success Sample.payload)))))
       = [] ++ ds.
Proof.
  apply (call_trace "get" "/test" (Sample.form Sample.auth) default_baseUri 3
           (Sample.world (Sample.throttled 2 (Sample.success Sample.payload)))
           _ (Resolved Sample.payload)).
  reflexivity.
Defined.

(** The events of a call answered 429 once and then 200. *)
Example call_trace_of_one_retry :
  Attempt.makeRequest_events 5 "get" "/test" (Sample.form Sample.auth) default_baseUri
    (Sample.world (Sample.throttled 1 (Sample.success Sample.payload)))
  = [Attempt.Fetched (build_request "get" "/test" (Sample.form Sample.auth) default_baseUri);
     Attempt.Slept 500;
     Attempt.Fetched (build_request "get" "/test" (Sample.form Sample.auth) default_baseUri)].
Proof. reflexivity. Qed.

Lemma outcome_soundness_witness :
  exists k,
    calls (fst (makeRequest 3 "get" "/test" (Sample.form Sample.auth) default_baseUri
                  (Sample.world (Sample.throttled 2 (Sample.success Sample.payload)))))
    = [] ++ repeat (build_request "get" "/test" (Sample.form Sample.auth) default_baseUri)
              (S k)
    /\ exists r,
         Sample.throttled 2 (Sample.success Sample.payload) (0 + k)%nat
           (build_request "get" "/test" (Sample.form Sample.auth) default_baseUri)
         = FetchResolved r
         /\ ok r = true /\ status r <> 429 /\ json r = Some Sample.payload.
Proof.
  apply (outcome_soundness "get" "/test" (Sample.form Sample.auth) default_baseUri 3
           (Sample.world (Sample.throttled 2 (Sample.success Sample.payload)))
           (fst (makeRequest 3 "get" "/test" (Sample.form Sample.auth) default_baseUri
                   (Sample.world (Sample.throttled 2 (Sample.success Sample.payload)))))
           (Resolved Sample.payload)).
  reflexivity.
Defined.

Lemma network_failure_propagates_witness :
  exists w',
    makeRequest (1 + 1) "get" "/test" (Sample.form Sample.auth) default_baseUri
      (Sample.world (fun i _ => if (i <? 1)%nat then FetchResolved Sample.rate_limited
                                else FetchRejected "ECONNREFUSED"))
      = (w', Some (Rejected (FetchFailure "ECONNREFUSED")))
    /\ calls w' = [] ++ repeat (build_request "get" "/test" (Sample.form Sample.auth)
                                  default_baseUri) 2
    /\ length (timers w') = (0 + 1)%nat.
Proof.
  apply (network_failure_propagates "get" "/test" (Sample.form Sample.auth) default_baseUri
           1 0
           (Sample.world (fun i _ => if (i <? 1)%nat then FetchResolved Sample.rate_limited
                                     else FetchRejected "ECONNREFUSED"))
           "ECONNREFUSED").
  - intros i Hi. exists Sample.rate_limited.
    destruct i as [|i]; [split; reflexivity | lia].
  - reflexivity.
Defined.

Lemma invalid_json_rejects_witness :
  exists w',
    makeRequest 1 "get" "/test" (Sample.form Sample.auth) default_baseUri
      (Sample.world (Sample.throttled 0 (mkResponse true 200 "<html>" None)))
      = (w', Some (Rejected JsonSyntaxError))
    /\ calls w' = [] ++ [build_request "get" "/test" (Sample.form Sample.auth) default_baseUri]
    /\ timers w' = [].
Proof.
  apply (invalid_json_rejects "get" "/test" (Sample.form Sample.auth) default_baseUri 0
           (Sample.world (Sample.throttled 0 (mkResponse true 200 "<html>" None)))
           (mkResponse true 200 "<html>" None)).
  - reflexivity.
  - reflexivity.
  - simpl; lia.
  - reflexivity.
Defined.

Lemma total_backoff_bounds_witness :
  exists k ds,
    calls (fst (makeRequest 3 "get" "/test" (Sample.form Sample.auth) default_baseUri
                  (Sample.world (Sample.throttled 2 (Sample.success Sample.payload)))))
    = [] ++ repeat (build_request "get" "/test" (Sample.form Sample.auth) default_baseUri) (S k)
    /\ timers (fst (makeRequest 3 "get" "/test" (Sample.form Sample.auth) default_baseUri
                      (Sample.world (Sample.throttled 2 (Sample.success Sample.payload)))))
       = [] ++ ds
    /\ length ds = k
    /\ 500 * Z.of_nat k <= Attempt.total_delay ds <= 6999 * Z.of_nat k.
Proof.
  apply (total_backoff_bounds "get" "/test" (Sample.form Sample.auth) default_baseUri 3
           (Sample.world (Sample.throttled 2 (Sample.success Sample.payload)))
           _ (Resolved Sample.payload)).
  - intros i. simpl. split; [discriminate | reflexivity].
  - reflexivity.
Defined.

End CoreExtras.

(** ** Further properties of the request of one attempt *)

Module RequestExtras.
Import Js Http.

(** X6. In form mode the request does not depend on the [data] and the
    [headers] of the payload: two payloads with the same query give the same
    request, which has neither body nor headers. *)
Theorem form_mode_ignores_data_and_headers
    (method uri baseUri : string) (q : Props) (h h' d d' : JsVal) :
  JsString.includes "json" method = false ->
  build_request method uri (mkOptions h d q) baseUri
    = build_request method uri (mkOptions h' d' q) baseUri
  /\ req_body (build_request method uri (mkOptions h d q) baseUri) = None
  /\ req_headers (build_request method uri (mkOptions h d q) baseUri) = JUndefined.
Proof.
  intros Hm. unfold build_request. rewrite Hm. simpl. repeat split.
Qed.

Lemma form_mode_ignores_data_and_headers_witness :
  build_request "PUT" "/1/cards/c1"
    (mkOptions Facade.json_headers Sample.a1 Sample.auth) default_baseUri
    = build_request "PUT" "/1/cards/c1"
        (mkOptions JUndefined JUndefined Sample.auth) default_baseUri
  /\ req_body (build_request "PUT" "/1/cards/c1"
                 (mkOptions Facade.json_headers Sample.a1 Sample.auth) default_baseUri) = None
  /\ req_headers (build_request "PUT" "/1/cards/c1"
                    (mkOptions Facade.json_headers Sample.a1 Sample.auth) default_baseUri)
     = JUndefined.
Proof.
  apply (form_mode_ignores_data_and_headers "PUT" "/1/cards/c1" default_baseUri Sample.auth
           Facade.json_headers JUndefined Sample.a1 JUndefined).
  reflexivity.
Defined.

Lemma length_append (s t : string) :
  String.length (String.append s t) = (String.length s + String.length t)%nat.
Proof. induction s as [|c s IH]; simpl; [reflexivity|]. now rewrite IH. Qed.

Lemma eqb_longer_than_json (c : ascii) (s : string) :
  String.eqb (String c (String.append s "json")) "json" = false.
Proof.
  apply String.eqb_neq. intros E. apply (f_equal String.length) in E.
  simpl in E. rewrite length_append in E. simpl in E. lia.
Qed.

Lemma replace_json_end_suffix (s : string) :
  JsString.replace_json_end (String.append s "json") = s.
Proof.
  induction s as [|c s IH]; [reflexivity|].
  change (String.append (String c s) "json") with (String c (String.append s "json")).
  unfold JsString.replace_json_end; fold JsString.replace_json_end.
  now rewrite eqb_longer_than_json, IH.
Qed.

Lemma includes_json_suffix (s : string) :
  JsString.includes "json" (String.append s "json") = true.
Proof.
  induction s as [|c s IH]; [reflexivity|].
  change (String.append (String c s) "json") with (String c (String.append s "json")).
  unfold JsString.includes; fold JsString.includes. rewrite IH. apply orb_true_r.
Qed.

(** X7. A method that ends in the lower-case suffix [json] is a call in
    JSON mode on the verb before the suffix: the wire method is that verb in
    upper case, the headers are the payload's, and the body is
    [JSON.stringify(data)] when [data] is truthy and absent otherwise. *)
Theorem json_suffix_selects_json_mode
    (verb uri baseUri : string) (options : RequestOptions) :
  req_method (build_request (String.append verb "json") uri options baseUri)
    = JsString.toUpperCase verb
  /\ req_headers (build_request (String.append verb "json") uri options baseUri)
     = headers options
  /\ req_body (build_request (String.append verb "json") uri options baseUri)
     = (if truthy (data options) then JSON.stringify (data options) else None).
Proof.
  unfold build_request. rewrite includes_json_suffix, replace_json_end_suffix.
  simpl. repeat split.
Qed.

Lemma upper_char_not_lower (c : ascii) : JsString.is_lower (JsString.upper_char c) = false.
Proof. destruct c as [[] [] [] [] [] [] [] []]; reflexivity. Qed.

Lemma upper_char_idempotent (c : ascii) :
  JsString.upper_char (JsString.upper_char c) = JsString.upper_char c.
Proof. destruct c as [[] [] [] [] [] [] [] []]; reflexivity. Qed.

(** X8. The wire method has no lower-case ASCII letter and is unchanged by
    another [toUpperCase], whatever method the caller names. *)
Theorem wire_method_is_upper_case
    (method uri baseUri : string) (options : RequestOptions) :
  List.forallb (fun c => negb (JsString.is_lower c))
    (list_ascii_of_string (req_method (build_request method uri options baseUri))) = true
  /\ JsString.toUpperCase (req_method (build_request method uri options baseUri))
     = req_method (build_request method uri options baseUri).
Proof.
  assert (E : req_method (build_request method uri options baseUri)
              = JsString.toUpperCase (JsString.replace_json_end method)).
  { unfold build_request. now destruct (JsString.includes "json" method). }
  rewrite E. generalize (JsString.replace_json_end method) as s. intros s. split.
  - induction s as [|c s IH]; [reflexivity|]. simpl.
    now rewrite upper_char_not_lower, IH.
  - induction s as [|c s IH]; [reflexivity|]. simpl.
    now rewrite upper_char_idempotent, IH.
Qed.

(** X9. For every value of the type [RequestMethod] the wire method is one
    of GET, POST, PUT and DELETE, and the call is in JSON mode exactly for
    [postjson] and [putjson]. *)
Theorem declared_methods_wire
    (method uri baseUri : string) (options : RequestOptions) :
  In method Client.RequestMethod_values ->
  In (req_method (build_request method uri options baseUri)) ["GET"; "POST"; "PUT"; "DELETE"]
  /\ (JsString.includes "json" method = true
      <-> method = "postjson" \/ method = "putjson").
Proof.
  intros H. simpl in H.
  destruct H as [<-|[<-|[<-|[<-|[<-|[<-|[]]]]]]]; (split; [simpl; tauto|]);
    split; intros H; try discriminate; try tauto;
    destruct H as [H|H]; discriminate.
Qed.

Lemma declared_methods_wire_witness :
  In (req_method (build_request "putjson" "/t" (Sample.json_options Sample.a1)
                    default_baseUri)) ["GET"; "POST"; "PUT"; "DELETE"]
  /\ (JsString.includes "json" "putjson" = true
      <-> "putjson" = "postjson" \/ "putjson" = "putjson").
Proof.
  apply (declared_methods_wire "putjson" "/t" default_baseUri (Sample.json_options Sample.a1)).
  simpl. tauto.
Defined.

End RequestExtras.

(** ** Reading the query string back *)

Module UrlExtras.
Import Js Http.

Lemma free_of_append (c : ascii) (s t : string) :
  UrlParser.free_of c (String.append s t)
  = UrlParser.free_of c s && UrlParser.free_of c t.
Proof.
  induction s as [|a s IH]; simpl; [reflexivity|]. rewrite IH. now rewrite andb_assoc.
Qed.

(** The encoder writes none of the four separators of a URL's query. *)
Lemma encode_char_free (a : ascii) :
  UrlParser.free_of "&" (Url.encode_char a) = true
  /\ UrlParser.free_of "=" (Url.encode_char a) = true
  /\ UrlParser.free_of "#" (Url.encode_char a) = true
  /\ UrlParser.free_of "?" (Url.encode_char a) = true.
Proof. destruct a as [[] [] [] [] [] [] [] []]; repeat split. Qed.

Lemma encode_free (s : string) :
  UrlParser.free_of "&" (Url.encode s) = true
  /\ UrlParser.free_of "=" (Url.encode s) = true
  /\ UrlParser.free_of "#" (Url.encode s) = true
  /\ UrlParser.free_of "?" (Url.encode s) = true.
Proof.
  induction s as [|a s (H1 & H2 & H3 & H4)]; [repeat split|].
  destruct (encode_char_free a) as (E1 & E2 & E3 & E4).
  simpl. rewrite !free_of_append, H1, H2, H3, H4, E1, E2, E3, E4. repeat split.
Qed.

Lemma decode_encode_char (a : ascii) (rest : string) :
  UrlParser.decode (String.append (Url.encode_char a) rest)
  = String a (UrlParser.decode rest).
Proof. destruct a as [[] [] [] [] [] [] [] []]; reflexivity. Qed.

(** Decoding undoes encoding. *)
Lemma decode_encode (s : string) : UrlParser.decode (Url.encode s) = s.
Proof.
  induction s as [|a s IH]; [reflexivity|].
  simpl. now rewrite decode_encode_char, IH.
Qed.

Lemma cut_at_free (c : ascii) (s : string) :
  UrlParser.free_of c s = true -> UrlParser.cut_at c s = (s, None).
Proof.
  induction s as [|a s IH]; simpl; [reflexivity|].
  destruct (Ascii.eqb a c); simpl; [discriminate|]. intros H. now rewrite (IH H).
Qed.

Lemma cut_at_append (c : ascii) (s t : string) :
  UrlParser.free_of c s = true ->
  UrlParser.cut_at c (String.append s (String c t)) = (s, Some t).
Proof.
  induction s as [|a s IH]; simpl.
  - now rewrite Ascii.eqb_refl.
  - destruct (Ascii.eqb a c); simpl; [discriminate|]. intros H. now rewrite (IH H).
Qed.

Lemma split_on_free (c : ascii) (s : string) :
  UrlParser.free_of c s = true -> UrlParser.split_on c s = [s].
Proof.
  induction s as [|a s IH]; simpl; [reflexivity|].
  destruct (Ascii.eqb a c); simpl; [discriminate|]. intros H. now rewrite (IH H).
Qed.

Lemma split_on_append (c : ascii) (s t : string) :
  UrlParser.free_of c s = true ->
  UrlParser.split_on c (String.append s (String c t)) = s :: UrlParser.split_on c t.
Proof.
  induction s as [|a s IH]; simpl.
  - now rewrite Ascii.eqb_refl.
  - destruct (Ascii.eqb a c); simpl; [discriminate|]. intros H. now rewrite (IH H).
Qed.

Lemma encode_pair_free (kv : string * string) :
  UrlParser.free_of "&" (Url.encode_pair kv) = true
  /\ UrlParser.free_of "#" (Url.encode_pair kv) = true
  /\ UrlParser.free_of "?" (Url.encode_pair kv) = true.
Proof.
  unfold Url.encode_pair.
  destruct (encode_free (fst kv)) as (A1 & _ & A3 & A4).
  destruct (encode_free (snd kv)) as (B1 & _ & B3 & B4).
  rewrite !free_of_append, A1, A3, A4, B1, B3, B4. repeat split.
Qed.

Lemma encode_pair_nonempty (kv : string * string) :
  String.eqb (Url.encode_pair kv) EmptyString = false.
Proof.
  unfold Url.encode_pair. destruct (Url.encode (fst kv)); reflexivity.
Qed.

Lemma parse_pair_encode_pair (kv : string * string) :
  UrlParser.parse_pair (Url.encode_pair kv) = kv.
Proof.
  unfold UrlParser.parse_pair, Url.encode_pair.
  destruct (encode_free (fst kv)) as (_ & A2 & _).
  change (String.append "=" (Url.encode (snd kv))) with (String "=" (Url.encode (snd kv))).
  rewrite (cut_at_append "=" _ _ A2), !decode_encode. now destruct kv.
Qed.

(** The sequences of a serialized query are the encoded pairs. *)
Lemma split_serialize (p : string * string) (ps : list (string * string)) :
  UrlParser.split_on "&" (Url.serialize (p :: ps)) = List.map Url.encode_pair (p :: ps).
Proof.
  revert p. induction ps as [|p' ps IH]; intros p.
  - simpl. apply split_on_free. apply encode_pair_free.
  - unfold Url.serialize in *. simpl List.map in *.
    change (JsString.join "&" (Url.encode_pair p :: Url.encode_pair p' :: List.map Url.encode_pair ps))
      with (String.append (Url.encode_pair p)
              (String "&" (JsString.join "&" (Url.encode_pair p' :: List.map Url.encode_pair ps)))).
    rewrite split_on_append by apply encode_pair_free. now rewrite IH.
Qed.

(** X10. Round trip of the query string: parsing the serialization of a
    list of search parameters gives the list back, names and values and
    order, whatever bytes they contain. *)
Theorem parse_serialize (ps : list (string * string)) :
  UrlParser.parse (Url.serialize ps) = ps.
Proof.
  destruct ps as [|p ps]; [reflexivity|].
  unfold UrlParser.parse. rewrite split_serialize.
  induction (p :: ps) as [|q qs IH]; [reflexivity|].
  simpl. rewrite encode_pair_nonempty. simpl. now rewrite parse_pair_encode_pair, IH.
Qed.

Lemma serialize_free (ps : list (string * string)) :
  UrlParser.free_of "#" (Url.serialize ps) = true.
Proof.
  unfold Url.serialize. induction ps as [|p ps IH]; [reflexivity|].
  destruct (encode_pair_free p) as (_ & H & _).
  destruct ps as [|p' ps]; [exact H|].
  change (JsString.join "&" (List.map Url.encode_pair (p :: p' :: ps)))
    with (String.append (Url.encode_pair p)
            (String.append "&" (JsString.join "&" (List.map Url.encode_pair (p' :: ps))))).
  rewrite !free_of_append, H, IH. reflexivity.
Qed.

Lemma serialize_empty (ps : list (string * string)) :
  String.eqb (Url.serialize ps) EmptyString = true -> ps = [].
Proof.
  destruct ps as [|p ps]; [reflexivity|]. intros H. exfalso.
  unfold Url.serialize in H. simpl in H.
  pose proof (encode_pair_nonempty p) as N.
  destruct ps as [|p' ps]; simpl in H.
  - rewrite N in H. discriminate.
  - destruct (Url.encode_pair p); simpl in *; discriminate.
Qed.

(** Reading back the text of a URL whose base has no question mark and no
    hash gives the URL. *)
Lemma parse_href_toString (base : string) (ps : list (string * string)) :
  UrlParser.free_of "?" base = true ->
  UrlParser.free_of "#" base = true ->
  UrlParser.parse_href (Url.toString (Url.mkURL base ps)) = Url.mkURL base ps.
Proof.
  intros Hq Hh. unfold Url.toString, UrlParser.parse_href. simpl.
  destruct (String.eqb (Url.serialize ps) EmptyString) eqn:E.
  - apply serialize_empty in E. subst ps.
    now rewrite (cut_at_free "#" base Hh), (cut_at_free "?" base Hq).
  - rewrite (cut_at_free "#").
    + change (String.append "?" (Url.serialize ps)) with (String "?" (Url.serialize ps)).
      now rewrite (cut_at_append "?" base _ Hq), parse_serialize.
    + rewrite !free_of_append, Hh, serialize_free. reflexivity.
Qed.

Lemma lookup_prop_map (f : JsVal -> JsVal) (k : string) (q : Props) :
  lookup_prop k (List.map (fun kv => (fst kv, f (snd kv))) q)
  = option_map f (lookup_prop k q).
Proof.
  induction q as [|[k0 v0] q IH]; simpl; [reflexivity|].
  now destruct (String.eqb k k0).
Qed.

Lemma getQueryParams_of_toString (base : string) (q : Props) :
  UrlParser.free_of "?" base = true ->
  UrlParser.free_of "#" base = true ->
  UrlParser.getQueryParams (Url.toString (Url.mkURL base (stringified q)))
  = List.fold_left (fun params kv => set_prop (fst kv) (snd kv) params)
      (List.map (fun kv => (fst kv, JStr (ToString (snd kv)))) (enumerate q)) [].
Proof.
  intros Hq Hh. unfold UrlParser.getQueryParams.
  rewrite (parse_href_toString base _ Hq Hh). simpl Url.searchParams.
  unfold stringified. simpl entries.
  generalize (enumerate q) as l. generalize (@nil (string * JsVal)) as acc.
  intros acc l. revert acc.
  induction l as [|[k v] l IH]; intros acc; simpl; [reflexivity|]. apply IH.
Qed.

(** X11. What [getQueryParams] reads in the URL of a request is the query
    of the call: the search parameters are the entries of the query in
    their order, each value in its string form, and, the names being
    distinct, the record has under every name the string form of the value
    the query has under it, and nothing under a name the query lacks.  The
    base URL is one without question mark and hash. *)
Theorem query_params_round_trip
    (method uri baseUri : string) (options : RequestOptions) :
  UrlParser.free_of "?" (String.append baseUri uri) = true ->
  UrlParser.free_of "#" (String.append baseUri uri) = true ->
  NoDup (List.map fst (query options)) ->
  Url.searchParams (UrlParser.parse_href (req_url (build_request method uri options baseUri)))
    = stringified (query options)
  /\ forall k,
       lookup_prop k (UrlParser.getQueryParams
                        (req_url (build_request method uri options baseUri)))
       = option_map (fun v => JStr (ToString v)) (lookup_prop k (query options)).
Proof.
  intros Hq Hh Hnd. rewrite RequestFacts.build_request_url. split.
  - now rewrite (parse_href_toString _ _ Hq Hh).
  - intros k. rewrite (getQueryParams_of_toString _ _ Hq Hh).
    rewrite FacadeFacts.lookup_fold_set_prop.
    + rewrite (lookup_prop_map (fun v => JStr (ToString v))).
      rewrite (ObjectFacts.lookup_enumerate k _ Hnd).
      now destruct (lookup_prop k (query options)).
    + rewrite List.map_map. simpl. now apply ObjectFacts.enumerate_NoDup.
Qed.

Lemma query_params_round_trip_witness :
  Url.searchParams
    (UrlParser.parse_href
       (req_url (build_request "post" "/1/cards" (Sample.form Sample.card_query)
                   default_baseUri)))
    = stringified (query (Sample.form Sample.card_query))
  /\ forall k,
       lookup_prop k (UrlParser.getQueryParams
                        (req_url (build_request "post" "/1/cards"
                                    (Sample.form Sample.card_query) default_baseUri)))
       = option_map (fun v => JStr (ToString v))
           (lookup_prop k (query (Sample.form Sample.card_query))).
Proof.
  apply (query_params_round_trip "post" "/1/cards" default_baseUri
           (Sample.form Sample.card_query)).
  - reflexivity.
  - reflexivity.
  - apply (bool_decide_unpack _). vm_compute. exact I.
Defined.

End UrlExtras.

(** ** Further properties of the facade's generic entry point *)

Module FacadeExtras.
Import Js Http.

Lemma keys_set_prop (x k : string) (v : JsVal) (ps : Props) :
  x ∈ List.map fst (set_prop k v ps) -> x = k \/ x ∈ List.map fst ps.
Proof.
  induction ps as [|[k0 v0] ps IH]; simpl.
  - intros H. apply list_elem_of_singleton in H. now left.
  - destruct (String.eqb_spec k k0) as [->|Hne]; simpl; intros H.
    + now right.
    + apply elem_of_cons in H as [->|H].
      * right. apply elem_of_cons. now left.
      * destruct (IH H) as [->|H']; [now left|]. right. apply elem_of_cons. now right.
Qed.

(** Setting a property keeps the names of an object distinct. *)
Lemma NoDup_set_prop (k : string) (v : JsVal) (ps : Props) :
  NoDup (List.map fst ps) -> NoDup (List.map fst (set_prop k v ps)).
Proof.
  induction ps as [|[k0 v0] ps IH]; simpl; intros H.
  - apply NoDup_singleton.
  - apply NoDup_cons in H as [Hnotin Hnd].
    destruct (String.eqb_spec k k0) as [->|Hne]; simpl.
    + apply NoDup_cons. now split.
    + apply NoDup_cons. split; [|now apply IH].
      intros Hin. destruct (keys_set_prop _ _ _ _ Hin) as [->|Hin']; [congruence|contradiction].
Qed.

Lemma NoDup_spread (acc : Props) (v : JsVal) :
  NoDup (List.map fst acc) -> NoDup (List.map fst (spread acc v)).
Proof.
  unfold spread. generalize (entries v) as es. intros es. revert acc.
  induction es as [|[k x] es IH]; intros acc H; simpl; [exact H|].
  apply IH. now apply NoDup_set_prop.
Qed.

(** The query the generic entry point merges from the options [v]. *)
Lemma merged_query_auth (this : Facade.Trello) (v : JsVal) :
  lookup_prop "key" (spread (spread [] v) (JObj (Facade.createQuery this)))
    = Some (JStr (Facade.key this))
  /\ lookup_prop "token" (spread (spread [] v) (JObj (Facade.createQuery this)))
     = Some (JStr (Facade.token this))
  /\ NoDup (List.map fst (spread (spread [] v) (JObj (Facade.createQuery this)))).
Proof.
  split; [|split].
  - unfold spread at 1. simpl. now rewrite !FacadeFacts.lookup_set_prop.
  - unfold spread at 1. simpl. now rewrite !FacadeFacts.lookup_set_prop.
  - apply NoDup_spread, NoDup_spread. simpl. apply NoDup_nil_2.
Qed.

Lemma calls_repeat (method uri : string) (options : RequestOptions) (baseUri : string)
    (fuel : nat) (w : World) :
  exists n,
    calls (fst (makeRequest fuel method uri options baseUri w))
    = calls w ++ repeat (build_request method uri options baseUri) n.
Proof.
  destruct fuel as [|fuel].
  - exists 0%nat. simpl. now rewrite app_nil_r.
  - destruct (FacadeFacts.makeRequest_calls method uri options baseUri fuel w) as [k Hk].
    exists (S k). exact Hk.
Qed.

(** What the generic entry point does with a method that is a string and
    options that are an object [o]: it calls the core with the merged query,
    and with a payload whose request has no body and no headers. *)
Lemma dispatch_object (fuel : nat) (this : Facade.Trello) (m path : string)
    (o : Props) (s : gmap nat JsVal) (w : World) :
  exists opts,
    query opts = spread (spread [] (JObj o)) (JObj (Facade.createQuery this))
    /\ snd (fst (Facade.makeRequest fuel this (JStr m) path (Facade.ByValue (JObj o)) s w))
       = fst (makeRequest fuel m path opts (Facade.uri this) w)
    /\ snd (Facade.makeRequest fuel this (JStr m) path (Facade.ByValue (JObj o)) s w)
       = snd (makeRequest fuel m path opts (Facade.uri this) w)
    /\ req_body (build_request m path opts (Facade.uri this)) = None
    /\ req_headers (build_request m path opts (Facade.uri this)) = JUndefined.
Proof.
  unfold Facade.makeRequest. cbv beta iota zeta. unfold Facade.deref.
  cbn [typeof ToString negb]. change (String.eqb "string" "string") with true.
  change (String.eqb "object" "object") with true. cbn [negb get].
  set (q := spread (spread [] (JObj o)) (JObj (Facade.createQuery this))).
  set (d := match lookup_prop "data" o with Some x => x | None => JUndefined end).
  destruct (String.eqb_spec m "POST_JSON") as [->|H1]; cbn [orb].
  - exists (mkOptions Facade.json_headers d q). split; [reflexivity|].
    destruct (makeRequest fuel "POST_JSON" path _ (Facade.uri this) w) as [w' r].
    split; [reflexivity|]. split; [reflexivity|]. split; reflexivity.
  - destruct (String.eqb_spec m "PUT_JSON") as [->|H2].
    + exists (mkOptions Facade.json_headers d q). split; [reflexivity|].
      destruct (makeRequest fuel "PUT_JSON" path _ (Facade.uri this) w) as [w' r].
      split; [reflexivity|]. split; [reflexivity|]. split; reflexivity.
    + exists (mkOptions JUndefined JUndefined q). split; [reflexivity|].
      destruct (makeRequest fuel m path _ (Facade.uri this) w) as [w' r].
      split; [reflexivity|]. split; [reflexivity|].
      unfold build_request. simpl. destruct (JsString.includes "json" m); split; reflexivity.
Qed.

(** X12. The credentials on the wire are the client's.  Whatever the
    options object holds, also under the names [key] and [token], every
    request of the call has exactly one parameter [key] and one parameter
    [token] when read back, with the client's key and token, no name
    twice, and every other property of the options under its name in its
    string form.  The client's base URL and the path have no question mark
    and no hash. *)
Theorem generic_request_auth (fuel : nat) (this : Facade.Trello) (m path : string)
    (o : Props) (s : gmap nat JsVal) (w : World) :
  UrlParser.free_of "?" (String.append (Facade.uri this) path) = true ->
  UrlParser.free_of "#" (String.append (Facade.uri this) path) = true ->
  NoDup (List.map fst o) ->
  exists req n,
    calls (snd (fst (Facade.makeRequest (S fuel) this (JStr m) path
                       (Facade.ByValue (JObj o)) s w)))
      = calls w ++ req :: repeat req n
    /\ lookup_prop "key" (UrlParser.getQueryParams (req_url req))
       = Some (JStr (Facade.key this))
    /\ lookup_prop "token" (UrlParser.getQueryParams (req_url req))
       = Some (JStr (Facade.token this))
    /\ NoDup (List.map fst (Url.searchParams (UrlParser.parse_href (req_url req))))
    /\ forall k v,
         k <> "key" -> k <> "token" -> lookup_prop k o = Some v ->
         lookup_prop k (UrlParser.getQueryParams (req_url req)) = Some (JStr (ToString v)).
Proof.
  intros Hq Hh Hnd.
  destruct (dispatch_object (S fuel) this m path o s w) as (opts & Hquery & Hw & _ & _ & _).
  destruct (FacadeFacts.makeRequest_calls m path opts (Facade.uri this) fuel w) as [n Hn].
  destruct (merged_query_auth this (JObj o)) as (Hkey & Htok & Hmerged).
  rewrite <- Hquery in Hkey, Htok, Hmerged.
  destruct (UrlExtras.query_params_round_trip m path (Facade.uri this) opts Hq Hh Hmerged)
    as (Hparams & Hlook).
  exists (build_request m path opts (Facade.uri this)), n.
  split; [now rewrite Hw|]. split; [now rewrite Hlook, Hkey|].
  split; [now rewrite Hlook, Htok|]. split.
  - rewrite Hparams. unfold stringified. rewrite List.map_map. simpl.
    now apply ObjectFacts.enumerate_NoDup.
  - intros k v Hk Ht Hv. rewrite Hlook, Hquery.
    now rewrite (FacadeFacts.lookup_merged_query this k o Hnd Hk Ht), Hv.
Qed.

Lemma generic_request_auth_witness :
  exists req n,
    calls (snd (fst (Facade.makeRequest 1 Sample.client (JStr "GET") "/1/members/me/tokens"
                       (Facade.ByValue (JObj [("key", JStr "other"); ("webhooks", JBool true)]))
                       ∅ (Sample.world (Sample.throttled 0 (Sample.success Sample.payload))))))
      = calls (Sample.world (Sample.throttled 0 (Sample.success Sample.payload)))
        ++ req :: repeat req n
    /\ lookup_prop "key" (UrlParser.getQueryParams (req_url req))
       = Some (JStr (Facade.key Sample.client))
    /\ lookup_prop "token" (UrlParser.getQueryParams (req_url req))
       = Some (JStr (Facade.token Sample.client))
    /\ NoDup (List.map fst (Url.searchParams (UrlParser.parse_href (req_url req))))
    /\ forall k v,
         k <> "key" -> k <> "token" ->
         lookup_prop k [("key", JStr "other"); ("webhooks", JBool true)] = Some v ->
         lookup_prop k (UrlParser.getQueryParams (req_url req)) = Some (JStr (ToString v)).
Proof.
  apply (generic_request_auth 0 Sample.client "GET" "/1/members/me/tokens"
           [("key", JStr "other"); ("webhooks", JBool true)] ∅
           (Sample.world (Sample.throttled 0 (Sample.success Sample.payload)))).
  - reflexivity.
  - reflexivity.
  - apply (bool_decide_unpack _). vm_compute. exact I.
Defined.

Lemma Forall_repeat {A : Type} (P : A -> Prop) (x : A) (n : nat) :
  P x -> Forall P (repeat x n).
Proof. intros H. induction n; simpl; constructor; assumption. Qed.

(** X13. The generic entry point never sends a body and never sends
    headers: whatever the request method and the options, every request the
    call hands to the transport has neither, the two JSON names
    included. *)
Theorem generic_request_has_no_body (fuel : nat) (this : Facade.Trello) (m : JsVal)
    (path : string) (options : Facade.Param) (s : gmap nat JsVal) (w : World) :
  exists sent,
    calls (snd (fst (Facade.makeRequest fuel this m path options s w))) = calls w ++ sent
    /\ Forall (fun req => req_body req = None /\ req_headers req = JUndefined) sent.
Proof.
  unfold Facade.makeRequest. cbv beta iota zeta.
  destruct (negb (String.eqb (typeof m) "string")).
  { exists []. simpl. rewrite app_nil_r. split; [reflexivity|constructor]. }
  destruct (negb (String.eqb (typeof _) "object")).
  { exists []. simpl. rewrite app_nil_r. split; [reflexivity|constructor]. }
  destruct (String.eqb_spec (ToString m) "POST_JSON") as [->|H1]; cbn [orb].
  - destruct (get _ "data") as [d|].
    + match goal with
      | |- context [makeRequest fuel "POST_JSON" path ?opts (Facade.uri this) w] =>
          destruct (calls_repeat "POST_JSON" path opts (Facade.uri this) fuel w) as [n Hn];
          destruct (makeRequest fuel "POST_JSON" path opts (Facade.uri this) w) as [w' r]
      end.
      eexists. split; [exact Hn|]. apply Forall_repeat. split; reflexivity.
    + exists []. simpl. rewrite app_nil_r. split; [reflexivity|constructor].
  - destruct (String.eqb_spec (ToString m) "PUT_JSON") as [->|H2].
    + destruct (get _ "data") as [d|].
      * match goal with
        | |- context [makeRequest fuel "PUT_JSON" path ?opts (Facade.uri this) w] =>
            destruct (calls_repeat "PUT_JSON" path opts (Facade.uri this) fuel w) as [n Hn];
            destruct (makeRequest fuel "PUT_JSON" path opts (Facade.uri this) w) as [w' r]
        end.
        eexists. split; [exact Hn|]. apply Forall_repeat. split; reflexivity.
      * exists []. simpl. rewrite app_nil_r. split; [reflexivity|constructor].
    + match goal with
      | |- context [makeRequest fuel ?mm path ?opts (Facade.uri this) w] =>
          destruct (calls_repeat mm path opts (Facade.uri this) fuel w) as [n Hn];
          destruct (makeRequest fuel mm path opts (Facade.uri this) w) as [w' r]
      end.
      eexists. split; [exact Hn|]. apply Forall_repeat.
      unfold build_request. simpl. destruct (JsString.includes "json" (ToString m));
        split; reflexivity.
Qed.

(** X14. Options that are [null] pass the check of their type.  With a
    method other than the two JSON names the call is the call without
    options; with [POST_JSON] or [PUT_JSON] it rejects with a type error
    when it reads [data], the transport not invoked and the store as it
    was. *)
Theorem null_options (fuel : nat) (this : Facade.Trello) (m j path : string)
    (s : gmap nat JsVal) (w : World) :
  m <> "POST_JSON" -> m <> "PUT_JSON" ->
  j = "POST_JSON" \/ j = "PUT_JSON" ->
  Facade.makeRequest fuel this (JStr m) path (Facade.ByValue JNull) s w
    = Facade.makeRequest fuel this (JStr m) path (Facade.ByValue JUndefined) s w
  /\ exists message,
       Facade.makeRequest fuel this (JStr j) path (Facade.ByValue JNull) s w
       = (s, w, Some (Rejected (TypeError message))).
Proof.
  intros H1 H2 Hj. split.
  - unfold Facade.makeRequest. cbv beta iota zeta. unfold Facade.deref.
    cbn [typeof ToString negb]. change (String.eqb "string" "string") with true.
    change (String.eqb "object" "object") with true. cbn [negb].
    destruct (String.eqb_spec m "POST_JSON"); [contradiction|].
    destruct (String.eqb_spec m "PUT_JSON"); [contradiction|]. reflexivity.
  - eexists. destruct Hj; subst j; reflexivity.
Qed.

Lemma null_options_witness :
  Facade.makeRequest 1 Sample.client (JStr "GET") "/1/members/me" (Facade.ByValue JNull) ∅
    (Sample.world (Sample.throttled 0 (Sample.success Sample.payload)))
    = Facade.makeRequest 1 Sample.client (JStr "GET") "/1/members/me"
        (Facade.ByValue JUndefined) ∅
        (Sample.world (Sample.throttled 0 (Sample.success Sample.payload)))
  /\ exists message,
       Facade.makeRequest 1 Sample.client (JStr "PUT_JSON") "/1/members/me"
         (Facade.ByValue JNull) ∅
         (Sample.world (Sample.throttled 0 (Sample.success Sample.payload)))
       = (∅, Sample.world (Sample.throttled 0 (Sample.success Sample.payload)),
          Some (Rejected (TypeError message))).
Proof.
  apply (null_options 1 Sample.client "GET" "PUT_JSON" "/1/members/me" ∅
           (Sample.world (Sample.throttled 0 (Sample.success Sample.payload)))).
  - discriminate.
  - discriminate.
  - right. reflexivity.
Defined.

End FacadeExtras.

(** ** Properties of the constructor and of the entity methods *)

Module ClientExtras.
Import Js Http Facade Client.

(** X15. The constructor.  It builds a client exactly when, given the key
    as a string, the token is given and not empty, or, given a
    configuration object, both its fields are not empty; so the key itself
    may be empty in the first form and not in the second.  A client it
    builds has the production base URL, the key and token it was given, and
    a token that is not empty. *)
Theorem constructor_contract (keyOrConfig : KeyOrConfig) (tok : option string) :
  ((exists c, new_Trello keyOrConfig tok = Built c)
   <-> match keyOrConfig with
       | KeyString _ => exists t, tok = Some t /\ t <> EmptyString
       | KeyConfig k t => k <> EmptyString /\ t <> EmptyString
       end)
  /\ (forall c, new_Trello keyOrConfig tok = Built c ->
        uri c = "https://api.trello.com"
        /\ token c <> EmptyString
        /\ match keyOrConfig with
           | KeyString k => key c = k /\ tok = Some (token c)
           | KeyConfig k t => key c = k /\ token c = t
           end)
  /\ (forall t, t <> EmptyString ->
        new_Trello (KeyString EmptyString) (Some t)
          = Built (mkTrello "https://api.trello.com" EmptyString t)
        /\ exists message, new_Trello (KeyConfig EmptyString t) tok = Thrown message).
Proof.
  split; [|split].
  - destruct keyOrConfig as [k|k t]; simpl.
    + destruct tok as [t|]; simpl.
      * unfold nonempty. destruct (String.eqb_spec t EmptyString) as [->|Hne]; simpl.
        -- split; [intros [c Hc]; discriminate|]. intros (t & [= <-] & Ht). contradiction.
        -- split; [intros _; now exists t|]. intros _. eexists. reflexivity.
      * split; [intros [c Hc]; discriminate|]. intros (t & Ht & _). discriminate.
    + unfold nonempty.
      destruct (String.eqb_spec k EmptyString) as [->|Hk];
        destruct (String.eqb_spec t EmptyString) as [->|Ht]; simpl;
        (split; [intros [c Hc]; try discriminate; now split | intros [A B]]);
        try contradiction; eexists; reflexivity.
  - intros c H. destruct keyOrConfig as [k|k t]; simpl in H.
    + destruct tok as [t|]; [|discriminate]. unfold nonempty in H.
      destruct (String.eqb_spec t EmptyString) as [->|Hne]; simpl in H; [discriminate|].
      inversion H; subst. simpl. repeat split. exact Hne.
    + unfold nonempty in H.
      destruct (String.eqb_spec k EmptyString) as [->|Hk];
        destruct (String.eqb_spec t EmptyString) as [->|Ht]; simpl in H; try discriminate.
      inversion H; subst. simpl. repeat split. exact Ht.
  - intros t Ht. split.
    + simpl. unfold nonempty. destruct (String.eqb_spec t EmptyString); [contradiction|].
      reflexivity.
    + eexists. reflexivity.
Qed.

(** The core reads its payload only to build the request. *)
Lemma makeRequest_same_request (method uri baseUri : string) (o o' : RequestOptions) :
  build_request method uri o baseUri = build_request method uri o' baseUri ->
  forall fuel w,
    Http.makeRequest fuel method uri o baseUri w = Http.makeRequest fuel method uri o' baseUri w.
Proof.
  intros E. induction fuel as [|fuel IH]; intros w; [reflexivity|].
  simpl. rewrite E.
  destruct (transport w (length (calls w)) (build_request method uri o' baseUri)) as [r|];
    [|reflexivity].
  destruct (status r =? 429)%Z; [apply IH|reflexivity].
Qed.

(** X16. In [addCardWithExtraParams] the extra parameters come last and
    win: a name the extra parameters have is sent with their value, also
    [name], [idList], [key] and [token], so they can replace the
    credentials of the client; a name they lack keeps the value the method
    set.  Every request of the call is built from that query, enumerated as
    [Object.entries] does, array indices first. *)
Theorem extra_params_override_card (fuel : nat) (this : Trello) (name listId : string)
    (extra : Props) (w : World) :
  NoDup (List.map fst extra) ->
  (forall k,
     lookup_prop k (addCardWithExtraParams_query this name (JObj extra) listId)
     = match lookup_prop k extra with
       | Some v => Some v
       | None =>
           lookup_prop k [("key", JStr (key this)); ("token", JStr (token this));
                          ("name", JStr name); ("idList", JStr listId)]
       end)
  /\ NoDup (List.map fst (addCardWithExtraParams_query this name (JObj extra) listId))
  /\ exists n,
       calls (fst (addCardWithExtraParams (S fuel) this name (JObj extra) listId w))
       = calls w
         ++ build_request "POST" "/1/cards"
              (form_options (addCardWithExtraParams_query this name (JObj extra) listId))
              (uri this)
            :: repeat (build_request "POST" "/1/cards"
                         (form_options
                            (addCardWithExtraParams_query this name (JObj extra) listId))
                         (uri this)) n.
Proof.
  intros Hnd. split; [|split].
  - intros k. unfold addCardWithExtraParams_query.
    now rewrite (FacadeFacts.lookup_spread_object k extra Hnd).
  - unfold addCardWithExtraParams_query. apply FacadeExtras.NoDup_spread.
    apply (bool_decide_unpack _). vm_compute. exact I.
  - apply FacadeFacts.makeRequest_calls.
Qed.

Lemma extra_params_override_card_witness :
  (forall k,
     lookup_prop k (addCardWithExtraParams_query Sample.client "Card"
                      (JObj [("token", JStr "theirs"); ("pos", JStr "top")]) "list1")
     = match lookup_prop k [("token", JStr "theirs"); ("pos", JStr "top")] with
       | Some v => Some v
       | None =>
           lookup_prop k [("key", JStr (key Sample.client));
                          ("token", JStr (token Sample.client));
                          ("name", JStr "Card"); ("idList", JStr "list1")]
       end)
  /\ NoDup (List.map fst
              (addCardWithExtraParams_query Sample.client "Card"
                 (JObj [("token", JStr "theirs"); ("pos", JStr "top")]) "list1"))
  /\ exists n,
       calls (fst (addCardWithExtraParams 1 Sample.client "Card"
                     (JObj [("token", JStr "theirs"); ("pos", JStr "top")]) "list1"
                     (Sample.world (Sample.throttled 0 (Sample.success Sample.payload)))))
       = calls (Sample.world (Sample.throttled 0 (Sample.success Sample.payload)))
         ++ build_request "POST" "/1/cards"
              (form_options
                 (addCardWithExtraParams_query Sample.client "Card"
                    (JObj [("token", JStr "theirs"); ("pos", JStr "top")]) "list1"))
              (uri Sample.client)
            :: repeat (build_request "POST" "/1/cards"
                         (form_options
                            (addCardWithExtraParams_query Sample.client "Card"
                               (JObj [("token", JStr "theirs"); ("pos", JStr "top")]) "list1"))
                         (uri Sample.client)) n.
Proof.
  apply (extra_params_override_card 0 Sample.client "Card" "list1"
           [("token", JStr "theirs"); ("pos", JStr "top")]
           (Sample.world (Sample.throttled 0 (Sample.success Sample.payload)))).
  apply (bool_decide_unpack _). vm_compute. exact I.
Defined.

(** An extra parameter whose name is an array index is sent first. *)
Example extra_params_index_key_first :
  req_url (build_request "POST" "/1/cards"
             (form_options (addCardWithExtraParams_query Sample.client "Card"
                              (JObj [("7", JStr "x")]) "list1"))
             (uri Sample.client))
  = "https://api.trello.com/1/cards?7=x&key=k&token=t&name=Card&idList=list1".
Proof. reflexivity. Qed.

(** X17. In [getCardsOnBoardWithExtraParams] the argument [fields] is set
    after the extra parameters: the query has the argument under [fields],
    or [all] when it is left out, whatever the extra parameters say; every
    other name the extra parameters have is sent with their value, [key]
    and [token] included. *)
Theorem extra_params_fields_last (this : Trello) (extra : Props) (fields : option string) :
  NoDup (List.map fst extra) ->
  lookup_prop "fields" (getCardsOnBoardWithExtraParams_query this (JObj extra) fields)
    = Some (JStr (match fields with Some f => f | None => "all" end))
  /\ forall k, k <> "fields" ->
       lookup_prop k (getCardsOnBoardWithExtraParams_query this (JObj extra) fields)
       = match lookup_prop k extra with
         | Some v => Some v
         | None => lookup_prop k [("key", JStr (key this)); ("token", JStr (token this))]
         end.
Proof.
  intros Hnd. unfold getCardsOnBoardWithExtraParams_query. split.
  - now rewrite FacadeFacts.lookup_set_prop.
  - intros k Hk. rewrite FacadeFacts.lookup_set_prop.
    destruct (String.eqb_spec k "fields"); [contradiction|].
    now rewrite (FacadeFacts.lookup_spread_object k extra Hnd).
Qed.

Lemma extra_params_fields_last_witness :
  lookup_prop "fields"
    (getCardsOnBoardWithExtraParams_query Sample.client
       (JObj [("fields", JStr "name"); ("limit", JNum 5)]) None)
    = Some (JStr "all")
  /\ forall k, k <> "fields" ->
       lookup_prop k (getCardsOnBoardWithExtraParams_query Sample.client
                        (JObj [("fields", JStr "name"); ("limit", JNum 5)]) None)
       = match lookup_prop k [("fields", JStr "name"); ("limit", JNum 5)] with
         | Some v => Some v
         | None => lookup_prop k [("key", JStr (key Sample.client));
                                  ("token", JStr (token Sample.client))]
         end.
Proof.
  apply (extra_params_fields_last Sample.client
           [("fields", JStr "name"); ("limit", JNum 5)] None).
  apply (bool_decide_unpack _). vm_compute. exact I.
Defined.

(** X18. The entity methods that pass [data] to the core do so on the
    methods [PUT] and [POST], which are calls in form mode: what they pass
    as data has no effect.  The member type of [addMemberToBoard], the
    value of [setCustomFieldOnCard] and of [updateCustomFieldOnCard], the
    reaction of [addReactionToAction] and the description, callback URL and
    model of [addWebhook] change neither the requests nor the result of the
    call. *)
Theorem entity_data_is_not_sent (fuel : nat) (this : Trello) (a b : string)
    (x x' : string) (v v' : JsVal) (d d' c c' i i' : string) (w : World) :
  addMemberToBoard fuel this a b x w = addMemberToBoard fuel this a b x' w
  /\ setCustomFieldOnCard fuel this a b v w = setCustomFieldOnCard fuel this a b v' w
  /\ updateCustomFieldOnCard fuel this a b v w = updateCustomFieldOnCard fuel this a b v' w
  /\ addReactionToAction fuel this a v w = addReactionToAction fuel this a v' w
  /\ addWebhook fuel this d c i w = addWebhook fuel this d' c' i' w.
Proof.
  repeat split; apply makeRequest_same_request; reflexivity.
Qed.

(** X19. [addBoard] sends [key], [token] and [name], then [desc] when a
    description is given and [idOrganization] when an organization is
    given, in that order; a description that is the empty string is given,
    and is sent as an empty [desc].  The request is a POST without body. *)
Theorem add_board_optional_fields (fuel : nat) (this : Trello) (name : string)
    (description organizationId : option string) (w : World) :
  exists req n,
    calls (fst (addBoard (S fuel) this name description organizationId w))
      = calls w ++ req :: repeat req n
    /\ req_method req = "POST"
    /\ req_body req = None
    /\ req_url req
       = Url.toString
           (Url.mkURL (String.append (uri this) "/1/boards/")
              ([("key", key this); ("token", token this); ("name", name)]
               ++ match description with Some d => [("desc", d)] | None => [] end
               ++ match organizationId with
                  | Some o => [("idOrganization", o)]
                  | None => []
                  end)).
Proof.
  unfold addBoard. cbv beta zeta.
  match goal with
  | |- context [Http.makeRequest (S fuel) "POST" "/1/boards/" ?opts (uri this) w] =>
      destruct (FacadeFacts.makeRequest_calls "POST" "/1/boards/" opts (uri this) fuel w)
        as [cnt Hcnt];
      exists (build_request "POST" "/1/boards/" opts (uri this)), cnt
  end.
  split; [exact Hcnt|]. split; [reflexivity|]. split; [reflexivity|].
  rewrite RequestFacts.build_request_url.
  destruct description, organizationId; reflexivity.
Qed.

(** X20. [getCardsForList] tests [actions] for truthiness: an empty string
    is the same call as no [actions] at all, and a string that is not empty
    is sent as the parameter [actions], after the credentials. *)
Theorem get_cards_for_list_actions (fuel : nat) (this : Trello) (listId a : string)
    (w : World) :
  a <> EmptyString ->
  getCardsForList fuel this listId (Some EmptyString) w = getCardsForList fuel this listId None w
  /\ exists req n,
       calls (fst (getCardsForList (S fuel) this listId (Some a) w))
         = calls w ++ req :: repeat req n
       /\ req_url req
          = Url.toString
              (Url.mkURL (String.append (uri this) (path3 "/1/lists/" listId "/cards"))
                 [("key", key this); ("token", token this); ("actions", a)]).
Proof.
  intros Ha. split; [reflexivity|].
  unfold getCardsForList, nonempty.
  destruct (String.eqb_spec a EmptyString); [contradiction|]. cbn [negb]. cbv beta zeta.
  match goal with
  | |- context [Http.makeRequest (S fuel) "GET" ?p ?opts (uri this) w] =>
      destruct (FacadeFacts.makeRequest_calls "GET" p opts (uri this) fuel w) as [cnt Hcnt];
      exists (build_request "GET" p opts (uri this)), cnt
  end.
  split; [exact Hcnt|]. now rewrite RequestFacts.build_request_url.
Qed.

Lemma get_cards_for_list_actions_witness :
  getCardsForList 1 Sample.client "list1" (Some EmptyString)
    (Sample.world (Sample.throttled 0 (Sample.success Sample.payload)))
    = getCardsForList 1 Sample.client "list1" None
        (Sample.world (Sample.throttled 0 (Sample.success Sample.payload)))
  /\ exists req n,
       calls (fst (getCardsForList 2 Sample.client "list1" (Some "all")
                     (Sample.world (Sample.throttled 0 (Sample.success Sample.payload)))))
         = calls (Sample.world (Sample.throttled 0 (Sample.success Sample.payload)))
           ++ req :: repeat req n
       /\ req_url req
          = Url.toString
              (Url.mkURL (String.append (uri Sample.client) (path3 "/1/lists/" "list1" "/cards"))
                 [("key", key Sample.client); ("token", token Sample.client);
                  ("actions", "all")]).
Proof.
  apply (get_cards_for_list_actions 1 Sample.client "list1" "all"
           (Sample.world (Sample.throttled 0 (Sample.success Sample.payload)))).
  discriminate.
Defined.

(** X21. [getActionReactions] tests its flags against [undefined], not for
    truthiness: a flag that is [false] is sent, as the text [false]; a flag
    left out is not sent; [member] comes before [emoji], both after the
    credentials. *)
Theorem reaction_flags_sent (fuel : nat) (this : Trello) (actionId : string)
    (member emoji : option bool) (w : World) :
  exists req n,
    calls (fst (getActionReactions (S fuel) this actionId (Some (member, emoji)) w))
      = calls w ++ req :: repeat req n
    /\ req_url req
       = Url.toString
           (Url.mkURL (String.append (uri this) (path3 "/1/actions/" actionId "/reactions"))
              ([("key", key this); ("token", token this)]
               ++ match member with
                  | Some m => [("member", if m then "true" else "false")]
                  | None => []
                  end
               ++ match emoji with
                  | Some e => [("emoji", if e then "true" else "false")]
                  | None => []
                  end)).
Proof.
  unfold getActionReactions. cbv beta zeta.
  match goal with
  | |- context [Http.makeRequest (S fuel) "GET" ?p ?opts (uri this) w] =>
      destruct (FacadeFacts.makeRequest_calls "GET" p opts (uri this) fuel w) as [cnt Hcnt];
      exists (build_request "GET" p opts (uri this)), cnt
  end.
  split; [exact Hcnt|]. rewrite RequestFacts.build_request_url.
  destruct member as [[]|], emoji as [[]|]; reflexivity.
Qed.

End ClientExtras.

(** ** Further properties of the backoff delay *)

Module BackoffExtras.
Import Js Http.

Lemma backoff_delay_monotone (r1 r2 : Q) :
  (r1 <= r2)%Q -> backoff_delay r1 <= backoff_delay r2.
Proof.
  intros H. unfold backoff_delay.
  apply Z.add_le_mono_r. apply Qfloor_resp_le.
  apply Qmult_le_compat_r; [exact H | discriminate].
Qed.

(** X22. The delay grows with the draw, and every whole number of
    milliseconds from 500 to 6999 is the delay of some draw of the unit
    interval: no value of the window is left out. *)
Theorem backoff_delay_monotone_onto (r1 r2 : Q) (d : Z) :
  (r1 <= r2)%Q ->
  500 <= d < 7000 ->
  backoff_delay r1 <= backoff_delay r2
  /\ exists r, (0 <= r)%Q /\ (r < 1)%Q /\ backoff_delay r = d.
Proof.
  intros Hr Hd. split; [now apply backoff_delay_monotone|].
  exists (inject_Z (d - 500) / inject_Z 6500)%Q.
  assert (E : (inject_Z (d - 500) / inject_Z 6500 * inject_Z 6500 == inject_Z (d - 500))%Q).
  { field. }
  split; [|split].
  - apply Qle_shift_div_l; [reflexivity|]. rewrite Qmult_0_l.
    change 0%Q with (inject_Z 0). rewrite <- Zle_Qle. lia.
  - apply Qlt_shift_div_r; [reflexivity|]. rewrite Qmult_1_l.
    rewrite <- Zlt_Qlt. lia.
  - apply BackoffFacts.backoff_delay_preimage. split; [apply Qle_refl|].
    apply (BackoffFacts.Qlt_div_iff _ (inject_Z 6500) _ eq_refl).
    rewrite E. rewrite <- Zlt_Qlt. lia.
Qed.

Lemma backoff_delay_monotone_onto_witness :
  backoff_delay (1 # 4) <= backoff_delay (1 # 2)
  /\ exists r, (0 <= r)%Q /\ (r < 1)%Q /\ backoff_delay r = 6999.
Proof.
  apply (backoff_delay_monotone_onto (1 # 4) (1 # 2) 6999).
  - discriminate.
  - lia.
Defined.

End BackoffExtras.
